(** * seismic-mpp: the two-device discrete-event simulation of [main.py]

    A shallow embedding of [Device], [Simulator.reset], [Simulator.simulate]
    and the trial loops of [run_simulation], followed by the properties of the
    event race, of the reset and of the Monte Carlo driver.

    Conventions of the embedding.
    - Simulation times are Python numbers (floats, and the integer literals
      of the configuration).  They are embedded as exact rationals [Q];
      Python's [==], [<] and [>=] on them become [Qeq_bool], [Qltb] and
      [Qle_bool].
    - [np.random.weibull] reads and advances numpy's global generator.  The
      generator is an explicit state of an arbitrary type [rng], threaded
      through every function that draws; the sampler itself is a Section
      variable.
    - [while True] is a loop with fuel over the loop body [step]: [None]
      means that the fuel ran out while the source loop is still running. *)

From Stdlib Require Import ZArith QArith Qminmax Lqa List Bool String Arith Lia.
Import ListNotations.
Local Open Scope Q_scope.

(** ** Comparisons and [min] *)

(** Python's [x < y]. *)
Definition Qltb (x y : Q) : bool := negb (Qle_bool y x).

(** Python's [min(a, b, c)]: the first of the smallest arguments. *)
Definition min3 (a b c : Q) : Q :=
  let m := if Qltb b a then b else a in
  if Qltb c m then c else m.

(** ** Data model *)

(** [Device = namedtuple("Device", [...])]. *)
Record Device : Type := mkDevice {
  name : string;
  shape : Q;
  scale : Q;
  next_maintenance : Q;
  end_maintenance : Q;
  failed : bool
}.

(** The attributes of a [Simulator] object. *)
Record Simulator : Type := mkSimulator {
  device1 : Device;
  device2 : Device;
  quake : Q;
  maintenance_duration : Q
}.

(** Earthquake parameters. *)
Definition q_slope : Q := 7 # 10.
Definition q_scale : Q := 200.

(** The uses of [Device._replace] in the source, one per set of keywords. *)
Definition replace_schedule (d : Device) (nm em : Q) (f : bool) : Device :=
  mkDevice (name d) (shape d) (scale d) nm em f.

Definition replace_next_maintenance (d : Device) (nm : Q) : Device :=
  mkDevice (name d) (shape d) (scale d) nm (end_maintenance d) (failed d).

Definition replace_failed_next (d : Device) (f : bool) (nm : Q) : Device :=
  mkDevice (name d) (shape d) (scale d) nm (end_maintenance d) f.

(** Assignments to [self.device1], [self.device2] and [self.quake]. *)
Definition set_device1 (s : Simulator) (d : Device) : Simulator :=
  mkSimulator d (device2 s) (quake s) (maintenance_duration s).

Definition set_device2 (s : Simulator) (d : Device) : Simulator :=
  mkSimulator (device1 s) d (quake s) (maintenance_duration s).

Definition set_quake (s : Simulator) (q : Q) : Simulator :=
  mkSimulator (device1 s) (device2 s) q (maintenance_duration s).

(** One iteration of the [while True] loop either leaves it ([break], with the
    value of [current_time]) or ends with a new [current_time], the updated
    simulator and the advanced generator. *)
Inductive Outcome (rng : Type) : Type :=
| Break (t : Q)
| Continue (t : Q) (s : Simulator) (g : rng).
Arguments Break {rng} t.
Arguments Continue {rng} t s g.

(** ** The simulator and the driver, over an arbitrary sampler *)

Section Simulation.

Variable rng : Type.

(** [weibull a g] is [np.random.weibull(a)] in generator state [g]: the value
    drawn and the next state. *)
Variable weibull : Q -> rng -> Q * rng.

(** [Simulator.reset]. *)
Definition reset (s : Simulator) (g : rng) : Simulator * rng :=
  let d1 := replace_schedule (device1 s) (scale (device1 s)) 0 false in
  let d2 := replace_schedule (device2 s) (scale (device2 s)) 0 false in
  let (w, g') := weibull q_slope g in
  (mkSimulator d1 d2 (w * q_scale) (maintenance_duration s), g').

(** The three handlers of the dispatch in [simulate]. *)
Definition handle_device1 (current_time : Q) (s : Simulator) (g : rng)
  : Simulator * rng :=
  let d := device1 s in
  let (w, g') := weibull (shape d) g in
  let s1 := set_device1 s
              (replace_schedule d (next_maintenance d + w * scale d)
                 (current_time + maintenance_duration s) false) in
  if Qltb current_time (end_maintenance (device2 s1))
  then (set_device1 s1
          (replace_next_maintenance (device1 s1)
             (end_maintenance (device2 s1) + 1)), g')
  else (s1, g').

Definition handle_device2 (current_time : Q) (s : Simulator) (g : rng)
  : Simulator * rng :=
  let d := device2 s in
  let (w, g') := weibull (shape d) g in
  let s1 := set_device2 s
              (replace_schedule d (next_maintenance d + w * scale d)
                 (current_time + maintenance_duration s) false) in
  if Qltb current_time (end_maintenance (device1 s1))
  then (set_device2 s1
          (replace_next_maintenance (device2 s1)
             (end_maintenance (device1 s1) + 1)), g')
  else (s1, g').

Definition handle_quake (current_time : Q) (s : Simulator) (g : rng)
  : Simulator * rng :=
  let (w, g') := weibull 3 g in
  let s1 := set_quake s (current_time + w * 100) in
  let s2 := if Qle_bool (end_maintenance (device1 s1)) current_time
            then set_device1 s1
                   (replace_failed_next (device1 s1) true
                      (current_time + maintenance_duration s1))
            else s1 in
  let s3 := if Qle_bool (end_maintenance (device2 s2)) current_time
            then set_device2 s2
                   (replace_failed_next (device2 s2) true
                      (current_time + maintenance_duration s2))
            else s2 in
  (s3, g').

(** The body of [while True] in [simulate]. *)
Definition step (current_time : Q) (s : Simulator) (g : rng) : Outcome rng :=
  let next_event :=
    min3 (next_maintenance (device1 s)) (next_maintenance (device2 s))
         (quake s) in
  if Qeq_bool next_event (quake s)
     && (Qltb current_time (end_maintenance (device1 s))
         && Qltb current_time (end_maintenance (device2 s)))
  then Break current_time
  else
    let current_time := next_event in
    if Qeq_bool next_event (next_maintenance (device1 s)) then
      let (s', g') := handle_device1 current_time s g in
      Continue current_time s' g'
    else if Qeq_bool next_event (next_maintenance (device2 s)) then
      let (s', g') := handle_device2 current_time s g in
      Continue current_time s' g'
    else
      let (s', g') := handle_quake current_time s g in
      Continue current_time s' g'.

(** The loop of [simulate], entered with [current_time]. *)
Fixpoint loop (fuel : nat) (current_time : Q) (s : Simulator) (g : rng)
  : option (Q * Simulator * rng) :=
  match fuel with
  | O => None
  | S fuel' =>
      match step current_time s g with
      | Break t => Some (t, s, g)
      | Continue t s' g' => loop fuel' t s' g'
      end
  end.

(** [Simulator.simulate]: the returned [current_time], with the simulator and
    the generator as the call leaves them. *)
Definition simulate (fuel : nat) (s : Simulator) (g : rng)
  : option (Q * Simulator * rng) :=
  loop fuel 0 s g.

(** [np.mean] of a list: the sum of the items, from the left, over their
    number.  For the empty list numpy returns nan with a warning, where this
    quotient is 0: the properties of the driver are stated for positive
    counts, whose Samples are not empty. *)
Definition mean (l : list Q) : Q :=
  fold_left Qplus l 0 / inject_Z (Z.of_nat (List.length l)).

(** The inner [for _ in range(num_simulations)] of [run_simulation]:
    [termination_times] is the list built so far. *)
Fixpoint run_trials (fuel n : nat) (termination_times : list Q)
  (s : Simulator) (g : rng) : option (list Q * Simulator * rng) :=
  match n with
  | O => Some (termination_times, s, g)
  | S n' =>
      match simulate fuel s g with
      | None => None
      | Some (termination_time, s1, g1) =>
          let (s2, g2) := reset s1 g1 in
          run_trials fuel n' (termination_times ++ [termination_time]) s2 g2
      end
  end.

(** The outer [for num_simulations in simulation_runs]. *)
Fixpoint run_batches (fuel : nat) (runs : list nat) (average_times : list Q)
  (s : Simulator) (g : rng) : option (list Q * Simulator * rng) :=
  match runs with
  | [] => Some (average_times, s, g)
  | num_simulations :: rest =>
      match run_trials fuel num_simulations [] s g with
      | None => None
      | Some (termination_times, s1, g1) =>
          run_batches fuel rest (average_times ++ [mean termination_times])
            s1 g1
      end
  end.

(** The two devices and the simulator that [run_simulation] constructs; the
    default [maintenance_duration] is 30. *)
Definition initial_device1 : Device := mkDevice "Device 1" 2 200 30 0 false.
Definition initial_device2 : Device := mkDevice "Device 2" 3 100 180 0 false.

Definition initial_simulator (g : rng) : Simulator * rng :=
  let (w, g') := weibull q_slope g in
  (mkSimulator initial_device1 initial_device2 (w * q_scale) 30, g').

(** The abscissae [[1/n for n in simulation_runs]] of the convergence plot,
    paired by [plt.plot] with [average_times].  For a count of 0 Python
    raises ZeroDivisionError, where this quotient is 0: the properties of
    the driver are stated for positive counts. *)
Definition inverse_count (n : nat) : Q := 1 / inject_Z (Z.of_nat n).

Definition convergence_points (runs : list nat) (average_times : list Q)
  : list (Q * Q) :=
  combine (map inverse_count runs) average_times.

(** The computation of [run_simulation] for a schedule [runs] of trial
    counts: the points of the convergence plot. *)
Definition run_simulation_on (fuel : nat) (runs : list nat) (g : rng)
  : option (list (Q * Q)) :=
  let (simulator, g1) := initial_simulator g in
  match run_batches fuel runs [] simulator g1 with
  | None => None
  | Some (average_times, _, _) => Some (convergence_points runs average_times)
  end.

End Simulation.

(** [simulation_runs = [1000 * 2 ** i for i in range(8)]]. *)
Definition simulation_runs : list nat :=
  map (fun i : nat => Nat.mul 1000 (Nat.pow 2 i)) (seq 0 8).

Definition run_simulation {rng : Type} (weibull : Q -> rng -> Q * rng)
  (fuel : nat) (g : rng) : option (list (Q * Q)) :=
  run_simulation_on rng weibull fuel simulation_runs g.

Arguments reset {rng} weibull s g.
Arguments handle_device1 {rng} weibull current_time s g.
Arguments handle_device2 {rng} weibull current_time s g.
Arguments handle_quake {rng} weibull current_time s g.
Arguments step {rng} weibull current_time s g.
Arguments loop {rng} weibull fuel current_time s g.
Arguments simulate {rng} weibull fuel s g.
Arguments run_trials {rng} weibull fuel n termination_times s g.
Arguments run_batches {rng} weibull fuel runs average_times s g.
Arguments initial_simulator {rng} weibull g.
Arguments run_simulation_on {rng} weibull fuel runs g.

(** ** The trials of a run, one by one *)

(** One call of [simulate] by the driver: the simulator and the generator it
    starts from, and the time it returns. *)
Record Trial (rng : Type) : Type := mkTrial {
  start_simulator : Simulator;
  start_generator : rng;
  termination_time : Q
}.
Arguments mkTrial {rng} _ _ _.
Arguments start_simulator {rng} _.
Arguments start_generator {rng} _.
Arguments termination_time {rng} _.

(** The trials of the inner loop of [run_simulation], in order, with the
    simulator and the generator the loop ends with. *)
Fixpoint trial_log {rng : Type} (weibull : Q -> rng -> Q * rng)
  (fuel n : nat) (s : Simulator) (g : rng)
  : option (list (Trial rng) * Simulator * rng) :=
  match n with
  | O => Some ([], s, g)
  | S n' =>
      match simulate weibull fuel s g with
      | None => None
      | Some (t, s1, g1) =>
          let (s2, g2) := reset weibull s1 g1 in
          match trial_log weibull fuel n' s2 g2 with
          | None => None
          | Some (l, s3, g3) => Some (mkTrial s g t :: l, s3, g3)
          end
      end
  end.

(** The trials of the outer loop, one list per trial count. *)
Fixpoint batch_log {rng : Type} (weibull : Q -> rng -> Q * rng)
  (fuel : nat) (runs : list nat) (s : Simulator) (g : rng)
  : option (list (list (Trial rng)) * Simulator * rng) :=
  match runs with
  | [] => Some ([], s, g)
  | n :: rest =>
      match trial_log weibull fuel n s g with
      | None => None
      | Some (l, s1, g1) =>
          match batch_log weibull fuel rest s1 g1 with
          | None => None
          | Some (ls, s2, g2) => Some (l :: ls, s2, g2)
          end
      end
  end.

(** The Sample of a list of trials and its mean. *)
Definition sample {rng : Type} (l : list (Trial rng)) : list Q :=
  map termination_time l.

Definition sample_mean {rng : Type} (l : list (Trial rng)) : Q :=
  mean (sample l).

(** [linked weibull fuel s g l s' g']: [l] is a sequence of trials in which
    the first one starts from [s] and [g], every trial is a call of
    [simulate] that returns, [reset] is called after each of them, and the
    next one starts from what that [reset] leaves; [s'] and [g'] are what the
    last [reset] leaves. *)
Inductive linked {rng : Type} (weibull : Q -> rng -> Q * rng) (fuel : nat)
  : Simulator -> rng -> list (Trial rng) -> Simulator -> rng -> Prop :=
| linked_nil (s : Simulator) (g : rng) : linked weibull fuel s g [] s g
| linked_cons (s s1 s2 s' : Simulator) (g g1 g2 g' : rng) (t : Q)
    (l : list (Trial rng)) :
    simulate weibull fuel s g = Some (t, s1, g1) ->
    reset weibull s1 g1 = (s2, g2) ->
    linked weibull fuel s2 g2 l s' g' ->
    linked weibull fuel s g (mkTrial s g t :: l) s' g'.

(** The devices of [s] as [reset] leaves them. *)
Definition reset_devices_of (s x : Simulator) : Prop :=
  device1 x =
    mkDevice (name (device1 s)) (shape (device1 s)) (scale (device1 s))
      (scale (device1 s)) 0 false /\
  device2 x =
    mkDevice (name (device2 s)) (shape (device2 s)) (scale (device2 s))
      (scale (device2 s)) 0 false.

(** ** Vocabulary of the properties *)

(** The time of the next event in a simulator state. *)
Definition next_event (s : Simulator) : Q :=
  min3 (next_maintenance (device1 s)) (next_maintenance (device2 s)) (quake s).

(** Both devices are inside their maintenance window at time [t]. *)
Definition both_in_maintenance (t : Q) (s : Simulator) : bool :=
  Qltb t (end_maintenance (device1 s)) && Qltb t (end_maintenance (device2 s)).

(** The test of the [break] of [simulate]. *)
Definition stops (t : Q) (s : Simulator) : bool :=
  Qeq_bool (next_event s) (quake s) && both_in_maintenance t s.

(** The branch taken by the dispatch when the loop goes on. *)
Inductive Event : Type := Maintenance1 | Maintenance2 | Seismic.

Definition selected (s : Simulator) : Event :=
  if Qeq_bool (next_event s) (next_maintenance (device1 s)) then Maintenance1
  else if Qeq_bool (next_event s) (next_maintenance (device2 s))
       then Maintenance2
       else Seismic.

(** Two devices, and two simulators, that agree on everything but the
    [failed] flags. *)
Definition same_but_failed (d d' : Device) : Prop :=
  name d = name d' /\ shape d = shape d' /\ scale d = scale d' /\
  next_maintenance d = next_maintenance d' /\
  end_maintenance d = end_maintenance d'.

Definition sim_same_but_failed (s s' : Simulator) : Prop :=
  same_but_failed (device1 s) (device1 s') /\
  same_but_failed (device2 s) (device2 s') /\
  quake s = quake s' /\ maintenance_duration s = maintenance_duration s'.

(** Two simulators with the same configuration: names, shapes, scales and
    maintenance duration, the attributes that no event writes. *)
Definition same_config (s s' : Simulator) : Prop :=
  name (device1 s) = name (device1 s') /\
  shape (device1 s) = shape (device1 s') /\
  scale (device1 s) = scale (device1 s') /\
  name (device2 s) = name (device2 s') /\
  shape (device2 s) = shape (device2 s') /\
  scale (device2 s) = scale (device2 s') /\
  maintenance_duration s = maintenance_duration s'.

(** Parameters under which time cannot go back: scales and maintenance
    duration are not negative. *)
Definition valid_parameters (s : Simulator) : Prop :=
  0 <= scale (device1 s) /\ 0 <= scale (device2 s) /\
  0 <= maintenance_duration s.

(** No event is scheduled before the current time [t]. *)
Definition time_ordered (t : Q) (s : Simulator) : Prop :=
  t <= next_maintenance (device1 s) /\ t <= next_maintenance (device2 s) /\
  t <= quake s.

(** [reaches weibull t s g t' s' g']: the loop entered with time [t],
    simulator [s] and generator [g] gets, after some iterations, to time [t'],
    simulator [s'] and generator [g']. *)
Inductive reaches {rng : Type} (weibull : Q -> rng -> Q * rng)
  : Q -> Simulator -> rng -> Q -> Simulator -> rng -> Prop :=
| reaches_here (t : Q) (s : Simulator) (g : rng) :
    reaches weibull t s g t s g
| reaches_next (t t1 t2 : Q) (s s1 s2 : Simulator) (g g1 g2 : rng) :
    step weibull t s g = Continue t1 s1 g1 ->
    reaches weibull t1 s1 g1 t2 s2 g2 ->
    reaches weibull t s g t2 s2 g2.

(** The three phases of the cycle of period 100 that the reference
    configuration follows when every draw is 1: right after the quake at
    time [T], after the maintenance of device 1 at [T + 30], and after the
    maintenance of device 2 at [T + 80]. *)
Definition reference_parameters (s : Simulator) : Prop :=
  scale (device1 s) == 200 /\ scale (device2 s) == 100 /\
  maintenance_duration s == 30.

Definition phase_quake (T t : Q) (s : Simulator) : Prop :=
  reference_parameters s /\ t == T /\
  next_maintenance (device1 s) == T + 30 /\
  end_maintenance (device1 s) <= T /\
  next_maintenance (device2 s) == T + 80 /\
  end_maintenance (device2 s) == T + 10 /\
  quake s == T + 100.

Definition phase_device1 (T t : Q) (s : Simulator) : Prop :=
  reference_parameters s /\ t == T + 30 /\
  next_maintenance (device1 s) == T + 230 /\
  end_maintenance (device1 s) == T + 60 /\
  next_maintenance (device2 s) == T + 80 /\
  end_maintenance (device2 s) == T + 10 /\
  quake s == T + 100.

Definition phase_device2 (T t : Q) (s : Simulator) : Prop :=
  reference_parameters s /\ t == T + 80 /\
  next_maintenance (device1 s) == T + 230 /\
  end_maintenance (device1 s) == T + 60 /\
  next_maintenance (device2 s) == T + 180 /\
  end_maintenance (device2 s) == T + 110 /\
  quake s == T + 100.

Definition in_cycle (t : Q) (s : Simulator) : Prop :=
  exists T : Q, phase_quake T t s \/ phase_device1 T t s \/ phase_device2 T t s.

(** The simulator that [run_simulation] constructs when the first draw is 1. *)
Definition reference_simulator : Simulator :=
  mkSimulator initial_device1 initial_device2 200 30.

(** The simulator that [run_simulation] constructs when the first draw is
    one half: the first quake is due at 100. *)
Definition half_simulator : Simulator :=
  mkSimulator initial_device1 initial_device2 ((1 # 2) * q_scale) 30.

(** A simulator that differs from [half_simulator] in the [failed] flags. *)
Definition half_simulator_failed : Simulator :=
  mkSimulator (mkDevice "Device 1" 2 200 30 0 true)
              (mkDevice "Device 2" 3 100 180 0 true) ((1 # 2) * q_scale) 30.

(** What a seismic event at time [t] does to one device, as a record: the
    device is marked failed and its repair is scheduled unless it is inside
    its maintenance window. *)
Definition quake_effect (t md : Q) (d : Device) : Device :=
  if Qle_bool (end_maintenance d) t
  then mkDevice (name d) (shape d) (scale d) (t + md) (end_maintenance d) true
  else d.

(** ** Concrete inputs *)

(** A simulator whose device 1 is due at 10 while device 2 is inside a window
    that ends at 20. *)
Definition deferral_simulator : Simulator :=
  mkSimulator (mkDevice "Device 1" 2 200 10 0 true)
              (mkDevice "Device 2" 3 100 50 20 false) 100 30.

(** A simulator whose device 1 and quake are both due at 50 while both
    devices are inside a window. *)
Definition tie_simulator : Simulator :=
  mkSimulator (mkDevice "Device 1" 2 200 50 40 false)
              (mkDevice "Device 2" 3 100 60 35 false) 50 30.

(** A simulator whose quake is due at 20, with device 1 outside and device 2
    inside a window. *)
Definition seismic_simulator : Simulator :=
  mkSimulator (mkDevice "Device 1" 2 200 40 10 false)
              (mkDevice "Device 2" 3 100 90 25 false) 20 30.

(** The same with the devices exchanged: device 2 is due at 10 while device 1
    is inside a window that ends at 20. *)
Definition deferral_simulator2 : Simulator :=
  mkSimulator (mkDevice "Device 1" 2 200 50 20 false)
              (mkDevice "Device 2" 3 100 10 0 true) 100 30.

(** A simulator whose quake is due first, at 50, with both devices inside a
    window at time 30. *)
Definition double_maintenance_simulator : Simulator :=
  mkSimulator (mkDevice "Device 1" 2 200 80 40 false)
              (mkDevice "Device 2" 3 100 60 35 false) 50 30.

(** A simulator whose two devices are both due at 30. *)
Definition double_due_simulator : Simulator :=
  mkSimulator (mkDevice "Device 1" 2 200 30 0 true)
              (mkDevice "Device 2" 3 100 30 0 true) 100 30.

(** Concrete samplers used to run the code on explicit inputs: every draw of
    [constant_weibull w] is [w]. *)
Definition constant_weibull (w : Q) : Q -> unit -> Q * unit :=
  fun _ g => (w, g).

(** [list_weibull]: the draws are the items of the generator state, a list,
    in order, and 1 once the list is used up. *)
Definition list_weibull : Q -> list Q -> Q * list Q :=
  fun _ g => match g with
             | [] => (1, [])
             | w :: g' => (w, g')
             end.

(** Five draws of one half: those of the first trial of [run_simulation]. *)
Definition five_halves : list Q := [1 # 2; 1 # 2; 1 # 2; 1 # 2; 1 # 2].

(** ** Vocabulary of the further properties *)

(** No window extends beyond the current time [t] by more than the
    maintenance duration. *)
Definition window_bounded (t : Q) (s : Simulator) : Prop :=
  end_maintenance (device1 s) <= t + maintenance_duration s /\
  end_maintenance (device2 s) <= t + maintenance_duration s.

(** A simulator at time 130 whose device 2 is due while device 1 is inside a
    window that ends at 160, the quake being due at 150. *)
Definition pre_break_simulator : Simulator :=
  mkSimulator (mkDevice "Device 1" 2 200 230 160 false)
              (mkDevice "Device 2" 3 100 130 0 true) 150 30.

(** The simulator a trial after the first starts from, written out: both
    devices keep name, shape and scale, have [next_maintenance] at their
    scale, no window and [failed = false]; the quake time is [q]; the
    maintenance duration is kept. *)
Definition fresh_simulator (s : Simulator) (q : Q) : Simulator :=
  mkSimulator
    (mkDevice (name (device1 s)) (shape (device1 s)) (scale (device1 s))
       (scale (device1 s)) 0 false)
    (mkDevice (name (device2 s)) (shape (device2 s)) (scale (device2 s))
       (scale (device2 s)) 0 false)
    q (maintenance_duration s).

(** [fresh_trials weibull fuel s g l]: [l] is a sequence of trials, each a
    call of [simulate] that returns its termination time; the first starts
    from [s] and [g], and each later one from the fresh simulator of the
    state the trial before it left, with a quake time drawn from the
    initial-arrival law (shape [q_slope], scale [q_scale]) in the generator
    that trial left. *)
Inductive fresh_trials {rng : Type} (weibull : Q -> rng -> Q * rng)
  (fuel : nat) : Simulator -> rng -> list (Trial rng) -> Prop :=
| fresh_trials_nil (s : Simulator) (g : rng) : fresh_trials weibull fuel s g []
| fresh_trials_cons (s s1 : Simulator) (g g1 : rng) (t : Q)
    (l : list (Trial rng)) :
    simulate weibull fuel s g = Some (t, s1, g1) ->
    fresh_trials weibull fuel
      (fresh_simulator s1 (fst (weibull q_slope g1) * q_scale))
      (snd (weibull q_slope g1)) l ->
    fresh_trials weibull fuel s g (mkTrial s g t :: l).

(** ** Basic facts *)

Lemma Qltb_true (x y : Q) : Qltb x y = true <-> x < y.
Proof.
  unfold Qltb. rewrite negb_true_iff. split.
  - intros H. apply Qnot_le_lt. intros L.
    apply Qle_bool_iff in L. congruence.
  - intros H. destruct (Qle_bool y x) eqn:E; [|reflexivity].
    apply Qle_bool_iff in E. lra.
Qed.

Lemma Qltb_false (x y : Q) : Qltb x y = false <-> y <= x.
Proof.
  unfold Qltb. rewrite negb_false_iff. apply Qle_bool_iff.
Qed.

Lemma Qle_bool_false (x y : Q) : Qle_bool x y = false <-> y < x.
Proof.
  rewrite <- (Qltb_true y x). unfold Qltb.
  destruct (Qle_bool x y); simpl; split; congruence.
Qed.

Lemma Qeq_bool_false (x y : Q) : Qeq_bool x y = false <-> ~ x == y.
Proof.
  split.
  - apply Qeq_bool_neq.
  - intros H. destruct (Qeq_bool x y) eqn:E; [|reflexivity].
    apply Qeq_bool_iff in E. contradiction.
Qed.

(** Turns the boolean comparisons among the hypotheses into propositions. *)
Ltac reflect_hyps :=
  repeat match goal with
  | H : Qltb _ _ = true |- _ => apply Qltb_true in H
  | H : Qltb _ _ = false |- _ => apply Qltb_false in H
  | H : Qle_bool _ _ = true |- _ => apply Qle_bool_iff in H
  | H : Qle_bool _ _ = false |- _ => apply Qle_bool_false in H
  | H : Qeq_bool _ _ = true |- _ => apply Qeq_bool_iff in H
  | H : Qeq_bool _ _ = false |- _ => apply Qeq_bool_false in H
  end.

(** Decides a comparison between closed rationals by evaluation. *)
Ltac q_decide :=
  vm_compute; first [reflexivity | let H := fresh in intro H; discriminate H].

(** Splits on the first boolean comparison that the goal branches on. *)
Ltac split_test :=
  match goal with
  | |- context [if Qltb ?a ?b then _ else _] =>
      let E := fresh "E" in destruct (Qltb a b) eqn:E
  | |- context [if Qle_bool ?a ?b then _ else _] =>
      let E := fresh "E" in destruct (Qle_bool a b) eqn:E
  | |- context [if Qeq_bool ?a ?b then _ else _] =>
      let E := fresh "E" in destruct (Qeq_bool a b) eqn:E
  end.

(** [min3] returns one of its arguments, and it is a lower bound of them. *)
Lemma min3_cases (a b c : Q) : min3 a b c = a \/ min3 a b c = b \/ min3 a b c = c.
Proof.
  unfold min3. destruct (Qltb b a); split_test; auto.
Qed.

Lemma min3_le (a b c : Q) : min3 a b c <= a /\ min3 a b c <= b /\ min3 a b c <= c.
Proof.
  unfold min3. destruct (Qltb b a) eqn:E1; split_test; reflect_hyps;
    repeat split; lra.
Qed.

Section Facts.

Context {rng : Type}.
Variable weibull : Q -> rng -> Q * rng.

(** [step] through the vocabulary: the [break] test, then the dispatch. *)
Lemma step_dispatch (t : Q) (s : Simulator) (g : rng) :
  step weibull t s g =
  if stops t s then Break t
  else match selected s with
       | Maintenance1 =>
           Continue (next_event s) (fst (handle_device1 weibull (next_event s) s g))
             (snd (handle_device1 weibull (next_event s) s g))
       | Maintenance2 =>
           Continue (next_event s) (fst (handle_device2 weibull (next_event s) s g))
             (snd (handle_device2 weibull (next_event s) s g))
       | Seismic =>
           Continue (next_event s) (fst (handle_quake weibull (next_event s) s g))
             (snd (handle_quake weibull (next_event s) s g))
       end.
Proof.
  unfold step, stops, selected, both_in_maintenance, next_event.
  destruct (Qeq_bool _ (quake s) && _); [reflexivity|].
  destruct (Qeq_bool _ (next_maintenance (device1 s))).
  - destruct (handle_device1 _ _ _ _); reflexivity.
  - destruct (Qeq_bool _ (next_maintenance (device2 s))).
    + destruct (handle_device2 _ _ _ _); reflexivity.
    + destruct (handle_quake _ _ _ _); reflexivity.
Qed.

(** What each handler leaves behind. *)
Lemma handle_device1_spec (t : Q) (s : Simulator) (g : rng) :
  let w := fst (weibull (shape (device1 s)) g) in
  let d := device1 s in
  handle_device1 weibull t s g =
  (mkSimulator
     (mkDevice (name d) (shape d) (scale d)
        (if Qltb t (end_maintenance (device2 s))
         then end_maintenance (device2 s) + 1
         else next_maintenance d + w * scale d)
        (t + maintenance_duration s) false)
     (device2 s) (quake s) (maintenance_duration s),
   snd (weibull (shape (device1 s)) g)).
Proof.
  unfold handle_device1. destruct (weibull _ g) as [w g']. simpl.
  destruct (Qltb t _); reflexivity.
Qed.

Lemma handle_device2_spec (t : Q) (s : Simulator) (g : rng) :
  let w := fst (weibull (shape (device2 s)) g) in
  let d := device2 s in
  handle_device2 weibull t s g =
  (mkSimulator (device1 s)
     (mkDevice (name d) (shape d) (scale d)
        (if Qltb t (end_maintenance (device1 s))
         then end_maintenance (device1 s) + 1
         else next_maintenance d + w * scale d)
        (t + maintenance_duration s) false)
     (quake s) (maintenance_duration s),
   snd (weibull (shape (device2 s)) g)).
Proof.
  unfold handle_device2. destruct (weibull _ g) as [w g']. simpl.
  destruct (Qltb t _); reflexivity.
Qed.

Lemma handle_quake_spec (t : Q) (s : Simulator) (g : rng) :
  handle_quake weibull t s g =
  (mkSimulator
     (quake_effect t (maintenance_duration s) (device1 s))
     (quake_effect t (maintenance_duration s) (device2 s))
     (t + fst (weibull 3 g) * 100) (maintenance_duration s),
   snd (weibull 3 g)).
Proof.
  unfold handle_quake, quake_effect. destruct (weibull 3 g) as [w g']. simpl.
  destruct (Qle_bool (end_maintenance (device1 s)) t); simpl;
    destruct (Qle_bool (end_maintenance (device2 s)) t); reflexivity.
Qed.

End Facts.

(** ** The event race: one iteration of the loop *)

Section EventRace.

Context {rng : Type}.
Variable weibull : Q -> rng -> Q * rng.

(** C1 (as amended): when the maintenance event of a device is the one
    handled, at time [next_event s], while the other device is still inside
    its window, the handled device ends with [next_maintenance] equal to the
    other device's [end_maintenance + 1], but its own window is opened all the
    same: [end_maintenance] is the event time plus the maintenance duration
    and [failed] is cleared.  The other device and the quake time are
    untouched. *)
Theorem deferral_keeps_window (t : Q) (s : Simulator) (g : rng) :
  stops t s = false ->
  (selected s = Maintenance1 ->
   next_event s < end_maintenance (device2 s) ->
   exists s' g',
     step weibull t s g = Continue (next_event s) s' g' /\
     next_maintenance (device1 s') = end_maintenance (device2 s) + 1 /\
     end_maintenance (device1 s') = next_event s + maintenance_duration s /\
     failed (device1 s') = false /\
     device2 s' = device2 s /\ quake s' = quake s) /\
  (selected s = Maintenance2 ->
   next_event s < end_maintenance (device1 s) ->
   exists s' g',
     step weibull t s g = Continue (next_event s) s' g' /\
     next_maintenance (device2 s') = end_maintenance (device1 s) + 1 /\
     end_maintenance (device2 s') = next_event s + maintenance_duration s /\
     failed (device2 s') = false /\
     device1 s' = device1 s /\ quake s' = quake s).
Proof.
  intros Hgo. split; intros Hsel Hin; apply Qltb_true in Hin;
    rewrite step_dispatch, Hgo, Hsel.
  - rewrite handle_device1_spec. simpl. rewrite Hin.
    eexists; eexists; repeat split; reflexivity.
  - rewrite handle_device2_spec. simpl. rewrite Hin.
    eexists; eexists; repeat split; reflexivity.
Qed.

(** C2: when the earliest of the three next times is the quake time and the
    current time is inside the windows of both devices, the iteration leaves
    the loop with the current time, and [simulate]'s loop returns that time
    with the simulator and the generator unchanged. *)
Theorem quake_in_double_maintenance_stops
  (fuel : nat) (t : Q) (s : Simulator) (g : rng) :
  min3 (next_maintenance (device1 s)) (next_maintenance (device2 s)) (quake s)
    == quake s ->
  t < end_maintenance (device1 s) ->
  t < end_maintenance (device2 s) ->
  step weibull t s g = Break t /\
  loop weibull (S fuel) t s g = Some (t, s, g).
Proof.
  intros Hq H1 H2.
  assert (Hs : step weibull t s g = Break t).
  { unfold step. apply Qeq_bool_iff in Hq. apply Qltb_true in H1, H2.
    rewrite Hq, H1, H2. reflexivity. }
  split; [exact Hs|]. simpl. rewrite Hs. reflexivity.
Qed.

(** C4 (as amended): on a tie between the quake time and the next maintenance
    of a device, the termination test is still made: if both devices are
    inside their windows at the current time the loop is left.  Otherwise the
    maintenance of the device is handled, device 1 before device 2, and the
    seismic branch is not: the quake time is not resampled.  Whenever the
    loop goes on and both devices are due at the earliest time, device 1 is
    the one handled. *)
Theorem tie_break_policy (t : Q) (s : Simulator) (g : rng) :
  (next_event s == quake s ->
   next_event s == next_maintenance (device1 s) \/
   next_event s == next_maintenance (device2 s) ->
   (both_in_maintenance t s = true -> step weibull t s g = Break t) /\
   (both_in_maintenance t s = false ->
    exists s' g',
      step weibull t s g = Continue (next_event s) s' g' /\
      quake s' = quake s /\
      (s', g') =
        if Qeq_bool (next_event s) (next_maintenance (device1 s))
        then handle_device1 weibull (next_event s) s g
        else handle_device2 weibull (next_event s) s g)) /\
  (stops t s = false ->
   next_event s == next_maintenance (device1 s) ->
   next_event s == next_maintenance (device2 s) ->
   exists s' g',
     step weibull t s g = Continue (next_event s) s' g' /\
     (s', g') = handle_device1 weibull (next_event s) s g).
Proof.
  split.
  - intros Hq Hd. apply Qeq_bool_iff in Hq.
    split; intros Hb; rewrite step_dispatch; unfold stops; rewrite Hq, Hb;
      [reflexivity|]. simpl.
    unfold selected.
    destruct (Qeq_bool (next_event s) (next_maintenance (device1 s))) eqn:E1.
    + rewrite handle_device1_spec. simpl.
      eexists; eexists; repeat split; reflexivity.
    + destruct (Qeq_bool (next_event s) (next_maintenance (device2 s))) eqn:E2.
      * rewrite handle_device2_spec. simpl.
        eexists; eexists; repeat split; reflexivity.
      * reflect_hyps. destruct Hd; contradiction.
  - intros Hgo H1 _. apply Qeq_bool_iff in H1.
    rewrite step_dispatch, Hgo. unfold selected. rewrite H1.
    eexists; eexists; split; [reflexivity|].
    destruct (handle_device1 _ _ _ _); reflexivity.
Qed.

(** C6: when the seismic event is the one handled, at time [next_event s]
    (which is then the quake time), the new quake time is that time plus a
    draw of shape 3 scaled by 100; a device whose [end_maintenance] is at
    most that time becomes failed with [next_maintenance] set to the time
    plus the maintenance duration, all else kept; a device whose
    [end_maintenance] is later is unchanged. *)
Theorem seismic_event_effect (t : Q) (s : Simulator) (g : rng) :
  stops t s = false ->
  selected s = Seismic ->
  exists s',
    step weibull t s g = Continue (next_event s) s' (snd (weibull 3 g)) /\
    next_event s = quake s /\
    quake s' = next_event s + fst (weibull 3 g) * 100 /\
    maintenance_duration s' = maintenance_duration s /\
    (end_maintenance (device1 s) <= next_event s ->
     device1 s' =
       mkDevice (name (device1 s)) (shape (device1 s)) (scale (device1 s))
         (next_event s + maintenance_duration s)
         (end_maintenance (device1 s)) true) /\
    (next_event s < end_maintenance (device1 s) -> device1 s' = device1 s) /\
    (end_maintenance (device2 s) <= next_event s ->
     device2 s' =
       mkDevice (name (device2 s)) (shape (device2 s)) (scale (device2 s))
         (next_event s + maintenance_duration s)
         (end_maintenance (device2 s)) true) /\
    (next_event s < end_maintenance (device2 s) -> device2 s' = device2 s).
Proof.
  intros Hgo Hsel. rewrite step_dispatch, Hgo, Hsel, handle_quake_spec. simpl.
  eexists. split; [reflexivity|]. simpl.
  assert (Hne : next_event s = quake s).
  { unfold selected in Hsel.
    destruct (Qeq_bool (next_event s) (next_maintenance (device1 s))) eqn:E1;
      [discriminate|].
    destruct (Qeq_bool (next_event s) (next_maintenance (device2 s))) eqn:E2;
      [discriminate|].
    reflect_hyps. unfold next_event in *.
    destruct (min3_cases (next_maintenance (device1 s))
                (next_maintenance (device2 s)) (quake s)) as [H|[H|H]];
      try exact H; rewrite H in *.
    - exfalso. apply E1. reflexivity.
    - exfalso. apply E2. reflexivity. }
  split; [exact Hne|]. split; [reflexivity|]. split; [reflexivity|].
  unfold quake_effect.
  repeat split; intros H.
  - apply Qle_bool_iff in H. rewrite H. reflexivity.
  - apply Qle_bool_false in H. rewrite H. reflexivity.
  - apply Qle_bool_iff in H. rewrite H. reflexivity.
  - apply Qle_bool_false in H. rewrite H. reflexivity.
Qed.

End EventRace.

(** *** The event race on concrete inputs *)

(** C1, as stated, fails: [Simulator(device1, device2, 100)] with device 1
    due at 10 ([end_maintenance] 0, [failed] true) and device 2 inside a
    window that ends at 20.  The first iteration handles the maintenance of
    device 1 at time 10 < 20 and defers it to 21, yet device 1 ends with
    [end_maintenance] 40, not 0, and [failed] false, not true. *)
Lemma deferral_keeps_fields_counterexample :
  stops 0 deferral_simulator = false /\
  selected deferral_simulator = Maintenance1 /\
  next_event deferral_simulator < end_maintenance (device2 deferral_simulator) /\
  exists s',
    step (constant_weibull 1) 0 deferral_simulator tt = Continue 10 s' tt /\
    next_maintenance (device1 s') = 21 /\
    end_maintenance (device1 s') = 40 /\
    ~ end_maintenance (device1 s') == end_maintenance (device1 deferral_simulator) /\
    failed (device1 s') = false /\
    failed (device1 s') <> failed (device1 deferral_simulator).
Proof.
  split; [reflexivity|]. split; [reflexivity|]. split; [reflexivity|].
  eexists. split; [reflexivity|]. simpl.
  repeat split; try reflexivity; discriminate.
Qed.

Lemma deferral_keeps_window_witness :
  (stops 0 deferral_simulator = false /\
   selected deferral_simulator = Maintenance1 /\
   next_event deferral_simulator < end_maintenance (device2 deferral_simulator) /\
   exists s' g',
     step (constant_weibull 1) 0 deferral_simulator tt
       = Continue (next_event deferral_simulator) s' g' /\
     next_maintenance (device1 s') = 20 + 1 /\
     end_maintenance (device1 s') = 10 + 30 /\
     failed (device1 s') = false /\
     device2 s' = device2 deferral_simulator /\
     quake s' = quake deferral_simulator) /\
  (stops 0 deferral_simulator2 = false /\
   selected deferral_simulator2 = Maintenance2 /\
   next_event deferral_simulator2 < end_maintenance (device1 deferral_simulator2) /\
   exists s' g',
     step (constant_weibull 1) 0 deferral_simulator2 tt
       = Continue (next_event deferral_simulator2) s' g' /\
     next_maintenance (device2 s') = 20 + 1 /\
     end_maintenance (device2 s') = 10 + 30 /\
     failed (device2 s') = false /\
     device1 s' = device1 deferral_simulator2 /\
     quake s' = quake deferral_simulator2).
Proof.
  split; (split; [reflexivity|]); (split; [reflexivity|]);
    (split; [reflexivity|]).
  - apply (proj1 (deferral_keeps_window (constant_weibull 1) 0
                    deferral_simulator tt eq_refl)); reflexivity.
  - apply (proj2 (deferral_keeps_window (constant_weibull 1) 0
                    deferral_simulator2 tt eq_refl)); reflexivity.
Defined.

Lemma quake_in_double_maintenance_stops_witness :
  min3 80 60 50 == 50 /\ 30 < 40 /\ 30 < 35 /\
  step (constant_weibull 1) 30 double_maintenance_simulator tt = Break 30 /\
  loop (constant_weibull 1) 1 30 double_maintenance_simulator tt
    = Some (30, double_maintenance_simulator, tt).
Proof.
  split; [reflexivity|]. split; [reflexivity|]. split; [reflexivity|].
  apply (quake_in_double_maintenance_stops (constant_weibull 1) 0 30
           double_maintenance_simulator tt); reflexivity.
Defined.

(** C4, as stated, fails: [Simulator(device1, device2, 50)] with device 1 due
    at 50, as the quake is, and both devices inside a window at time 0
    (windows end at 40 and 35).  The first iteration leaves the loop with
    time 0: the maintenance of device 1 is not handled. *)
Lemma tie_still_terminates_counterexample :
  next_event tie_simulator == next_maintenance (device1 tie_simulator) /\
  next_event tie_simulator == quake tie_simulator /\
  step (constant_weibull 1) 0 tie_simulator tt = Break 0 /\
  forall s' g',
    step (constant_weibull 1) 0 tie_simulator tt
      <> Continue (next_event tie_simulator) s' g'.
Proof.
  split; [reflexivity|]. split; [reflexivity|]. split; [reflexivity|].
  intros s' g'. discriminate.
Qed.

Lemma tie_break_policy_witness :
  (next_event tie_simulator == quake tie_simulator /\
   (next_event tie_simulator == next_maintenance (device1 tie_simulator) \/
    next_event tie_simulator == next_maintenance (device2 tie_simulator)) /\
   both_in_maintenance 0 tie_simulator = true /\
   step (constant_weibull 1) 0 tie_simulator tt = Break 0) /\
  (both_in_maintenance 45 tie_simulator = false /\
   exists s' g',
     step (constant_weibull 1) 45 tie_simulator tt = Continue 50 s' g' /\
     quake s' = 50 /\
     (s', g') = handle_device1 (constant_weibull 1) 50 tie_simulator tt) /\
  (stops 0 double_due_simulator = false /\
   next_event double_due_simulator
     == next_maintenance (device1 double_due_simulator) /\
   next_event double_due_simulator
     == next_maintenance (device2 double_due_simulator) /\
   exists s' g',
     step (constant_weibull 1) 0 double_due_simulator tt = Continue 30 s' g' /\
     (s', g') = handle_device1 (constant_weibull 1) 30 double_due_simulator tt).
Proof.
  assert (Hq : next_event tie_simulator == quake tie_simulator)
    by reflexivity.
  assert (Hd : next_event tie_simulator
                 == next_maintenance (device1 tie_simulator) \/
               next_event tie_simulator
                 == next_maintenance (device2 tie_simulator))
    by (left; reflexivity).
  split; [|split].
  - split; [exact Hq|]. split; [exact Hd|]. split; [reflexivity|].
    apply (proj1 (proj1 (tie_break_policy (constant_weibull 1) 0
                           tie_simulator tt) Hq Hd)).
    reflexivity.
  - split; [reflexivity|].
    apply (proj2 (proj1 (tie_break_policy (constant_weibull 1) 45
                           tie_simulator tt) Hq Hd)).
    reflexivity.
  - split; [reflexivity|]. split; [reflexivity|]. split; [reflexivity|].
    apply (proj2 (tie_break_policy (constant_weibull 1) 0
                    double_due_simulator tt)); reflexivity.
Defined.

Lemma seismic_event_effect_witness :
  stops 15 seismic_simulator = false /\
  selected seismic_simulator = Seismic /\
  exists s',
    step (constant_weibull 1) 15 seismic_simulator tt = Continue 20 s' tt /\
    quake s' = 20 + 1 * 100 /\
    device1 s' = mkDevice "Device 1" 2 200 (20 + 30) 10 true /\
    device2 s' = device2 seismic_simulator.
Proof.
  split; [reflexivity|]. split; [reflexivity|].
  destruct (seismic_event_effect (constant_weibull 1) 15 seismic_simulator tt
              eq_refl eq_refl)
    as (s' & Hstep & _ & Hq & _ & H1 & _ & _ & H2).
  exists s'. split; [exact Hstep|]. split; [exact Hq|].
  split; [apply H1|apply H2]; q_decide.
Defined.

(** ** Reset, and the role of [failed] *)

Section ResetAndFailed.

Context {rng : Type}.
Variable weibull : Q -> rng -> Q * rng.

Lemma same_config_refl (s : Simulator) : same_config s s.
Proof. unfold same_config. repeat split. Qed.

Lemma same_config_trans (s1 s2 s3 : Simulator) :
  same_config s1 s2 -> same_config s2 s3 -> same_config s1 s3.
Proof.
  unfold same_config. intros H1 H2.
  repeat match goal with H : _ /\ _ |- _ => destruct H end.
  repeat split; congruence.
Qed.

(** No event writes the configuration. *)
Lemma step_same_config (t t' : Q) (s s' : Simulator) (g g' : rng) :
  step weibull t s g = Continue t' s' g' -> same_config s s'.
Proof.
  rewrite step_dispatch. destruct (stops t s); [discriminate|].
  destruct (selected s); intros H; injection H as _ <- _.
  - rewrite handle_device1_spec. unfold same_config. simpl. repeat split.
  - rewrite handle_device2_spec. unfold same_config. simpl. repeat split.
  - rewrite handle_quake_spec. unfold same_config, quake_effect. simpl.
    destruct (Qle_bool (end_maintenance (device1 s)) _);
      destruct (Qle_bool (end_maintenance (device2 s)) _);
      repeat split.
Qed.

Lemma loop_same_config (fuel : nat) :
  forall (t r : Q) (s s' : Simulator) (g g' : rng),
    loop weibull fuel t s g = Some (r, s', g') -> same_config s s'.
Proof.
  induction fuel as [|fuel IH]; intros t r s s' g g' H; [discriminate|].
  simpl in H. destruct (step weibull t s g) as [t1|t1 s1 g1] eqn:E.
  - injection H as _ <- _. apply same_config_refl.
  - apply (same_config_trans s s1 s').
    + exact (step_same_config _ _ _ _ _ _ E).
    + exact (IH _ _ _ _ _ _ H).
Qed.

Lemma reset_devices (s : Simulator) (g : rng) :
  fst (reset weibull s g) =
  mkSimulator
    (mkDevice (name (device1 s)) (shape (device1 s)) (scale (device1 s))
       (scale (device1 s)) 0 false)
    (mkDevice (name (device2 s)) (shape (device2 s)) (scale (device2 s))
       (scale (device2 s)) 0 false)
    (fst (weibull q_slope g) * q_scale) (maintenance_duration s).
Proof.
  unfold reset. destruct (weibull q_slope g). reflexivity.
Qed.

(** C3 (as amended): after [reset] each device has [failed = false],
    [end_maintenance = 0] and [next_maintenance] equal to its [scale]
    parameter (not to the [next_maintenance] it was constructed with); name,
    shape and scale are kept and the quake time is a fresh draw of shape
    [q_slope] times [q_scale].  The devices after [reset] do not depend on how
    the previous trial ended: resetting after a trial gives the devices that
    resetting before it gives. *)
Theorem reset_state (s : Simulator) (g : rng) :
  (let s' := fst (reset weibull s g) in
   device1 s' =
     mkDevice (name (device1 s)) (shape (device1 s)) (scale (device1 s))
       (scale (device1 s)) 0 false /\
   device2 s' =
     mkDevice (name (device2 s)) (shape (device2 s)) (scale (device2 s))
       (scale (device2 s)) 0 false /\
   quake s' = fst (weibull q_slope g) * q_scale /\
   maintenance_duration s' = maintenance_duration s) /\
  (forall (fuel : nat) (r : Q) (s1 : Simulator) (g1 g0 : rng),
     simulate weibull fuel s g = Some (r, s1, g1) ->
     device1 (fst (reset weibull s1 g1)) = device1 (fst (reset weibull s g0)) /\
     device2 (fst (reset weibull s1 g1)) = device2 (fst (reset weibull s g0))).
Proof.
  split.
  - rewrite reset_devices. simpl. repeat split.
  - intros fuel r s1 g1 g0 H. apply loop_same_config in H.
    rewrite !reset_devices. simpl. unfold same_config in H.
    repeat match goal with H : _ /\ _ |- _ => destruct H end.
    split; congruence.
Qed.

Lemma same_but_failed_refl (d : Device) : same_but_failed d d.
Proof. unfold same_but_failed. repeat split. Qed.

(** One iteration on two simulators that differ in the [failed] flags only:
    the same test, the same branch, the same time, the same draws. *)
Lemma step_same_but_failed (t : Q) (s1 s2 : Simulator) (g : rng) :
  sim_same_but_failed s1 s2 ->
  match step weibull t s1 g, step weibull t s2 g with
  | Break r1, Break r2 => r1 = r2
  | Continue t1 s1' g1, Continue t2 s2' g2 =>
      t1 = t2 /\ g1 = g2 /\ sim_same_but_failed s1' s2'
  | _, _ => False
  end.
Proof.
  destruct s1 as [[n1 sh1 sc1 nm1 em1 f1] [n2 sh2 sc2 nm2 em2 f2] q md].
  destruct s2 as [[n1' sh1' sc1' nm1' em1' f1'] [n2' sh2' sc2' nm2' em2' f2'] q' md'].
  unfold sim_same_but_failed, same_but_failed. simpl.
  intros H.
  repeat match goal with H : _ /\ _ |- _ => destruct H end. subst.
  rewrite !step_dispatch.
  unfold stops, selected, both_in_maintenance, next_event. simpl.
  destruct (Qeq_bool _ q' && _); [reflexivity|].
  destruct (Qeq_bool _ nm1'); [|destruct (Qeq_bool _ nm2')].
  - rewrite !handle_device1_spec. simpl. repeat split.
  - rewrite !handle_device2_spec. simpl. repeat split.
  - rewrite !handle_quake_spec. unfold quake_effect. simpl.
    destruct (Qle_bool em1' _); destruct (Qle_bool em2' _); simpl;
      repeat split.
Qed.

(** C9: [failed] is never read.  On two simulators that differ in the
    [failed] flags only and with the same generator, the [break] test and the
    dispatch choose alike, and a trial entered at the same time with the same
    fuel either runs out of fuel on both or returns on both, with the same
    termination time, the same generator and simulators that again differ in
    the [failed] flags only. *)
Theorem failed_is_write_only
  (fuel : nat) (t : Q) (s1 s2 : Simulator) (g : rng) :
  sim_same_but_failed s1 s2 ->
  stops t s1 = stops t s2 /\
  selected s1 = selected s2 /\
  next_event s1 = next_event s2 /\
  match loop weibull fuel t s1 g, loop weibull fuel t s2 g with
  | Some (r1, s1', g1), Some (r2, s2', g2) =>
      r1 = r2 /\ g1 = g2 /\ sim_same_but_failed s1' s2'
  | None, None => True
  | _, _ => False
  end.
Proof.
  intros H.
  assert (Hsel : stops t s1 = stops t s2 /\ selected s1 = selected s2 /\
                 next_event s1 = next_event s2).
  { unfold stops, selected, both_in_maintenance, next_event.
    destruct H as ((_ & _ & _ & Hn1 & He1) & (_ & _ & _ & Hn2 & He2) & Hq & _).
    rewrite Hn1, Hn2, He1, He2, Hq. repeat split. }
  destruct Hsel as (Hs1 & Hs2 & Hs3).
  repeat (split; [assumption|]).
  clear Hs1 Hs2 Hs3. revert t s1 s2 g H.
  induction fuel as [|fuel IH]; intros t s1 s2 g H; simpl; [exact I|].
  pose proof (step_same_but_failed t s1 s2 g H) as Hstep.
  destruct (step weibull t s1 g) as [r1|t1 s1' g1];
    destruct (step weibull t s2 g) as [r2|t2 s2' g2]; try contradiction.
  - subst. split; [reflexivity|]. split; [reflexivity|exact H].
  - destruct Hstep as (-> & -> & H'). apply IH. exact H'.
Qed.

End ResetAndFailed.

(** ** Time along a trial *)

Section Monotonicity.

Context {rng : Type}.
Variable weibull : Q -> rng -> Q * rng.

(** Weibull variates are not negative. *)
Hypothesis weibull_nonneg : forall (a : Q) (g : rng), 0 <= fst (weibull a g).

Lemma step_valid_parameters (t t' : Q) (s s' : Simulator) (g g' : rng) :
  step weibull t s g = Continue t' s' g' ->
  valid_parameters s -> valid_parameters s'.
Proof.
  intros H. apply step_same_config in H. unfold same_config in H.
  unfold valid_parameters.
  destruct H as (_ & _ & H1 & _ & _ & H2 & H3). rewrite H1, H2, H3. auto.
Qed.

(** One iteration keeps the order of times and does not go back. *)
Lemma step_time_ordered (t t' : Q) (s s' : Simulator) (g g' : rng) :
  valid_parameters s -> time_ordered t s ->
  step weibull t s g = Continue t' s' g' ->
  t <= t' /\ time_ordered t' s'.
Proof.
  intros (Hs1 & Hs2 & Hmd) (H1 & H2 & H3).
  pose proof (min3_le (next_maintenance (device1 s))
                (next_maintenance (device2 s)) (quake s)) as (L1 & L2 & L3).
  fold (next_event s) in L1, L2, L3.
  assert (Lt : t <= next_event s).
  { unfold next_event.
    destruct (min3_cases (next_maintenance (device1 s))
                (next_maintenance (device2 s)) (quake s)) as [E|[E|E]];
      rewrite E; assumption. }
  rewrite step_dispatch. destruct (stops t s); [discriminate|].
  unfold time_ordered.
  destruct (selected s); intros H; injection H as <- <- _.
  - rewrite handle_device1_spec. simpl.
    pose proof (weibull_nonneg (shape (device1 s)) g) as Hw.
    pose proof (Qmult_le_0_compat _ _ Hw Hs1) as Hp.
    split; [exact Lt|]. repeat split; try assumption.
    split_test; reflect_hyps; lra.
  - rewrite handle_device2_spec. simpl.
    pose proof (weibull_nonneg (shape (device2 s)) g) as Hw.
    pose proof (Qmult_le_0_compat _ _ Hw Hs2) as Hp.
    split; [exact Lt|]. repeat split; try assumption.
    split_test; reflect_hyps; lra.
  - rewrite handle_quake_spec. unfold quake_effect. simpl.
    pose proof (weibull_nonneg 3 g) as Hw.
    split; [exact Lt|].
    destruct (Qle_bool (end_maintenance (device1 s)) (next_event s));
      destruct (Qle_bool (end_maintenance (device2 s)) (next_event s));
      simpl; (split; [|split]); lra.
Qed.

Lemma reaches_time_ordered (t t' : Q) (s s' : Simulator) (g g' : rng) :
  reaches weibull t s g t' s' g' ->
  valid_parameters s -> time_ordered t s ->
  t <= t' /\ valid_parameters s' /\ time_ordered t' s'.
Proof.
  induction 1 as [t s g|t t1 t2 s s1 s2 g g1 g2 Hstep _ IH]; intros Hv Ho.
  - split; [lra|]. split; assumption.
  - destruct (step_time_ordered _ _ _ _ _ _ Hv Ho Hstep) as (L & Ho1).
    pose proof (step_valid_parameters _ _ _ _ _ _ Hstep Hv) as Hv1.
    destruct (IH Hv1 Ho1) as (L' & Hv2 & Ho2).
    split; [lra|]. split; assumption.
Qed.

(** The loop is deterministic: from a state on the way, it returns what it
    returns from the start. *)
Lemma reaches_loop (t t' : Q) (s s' : Simulator) (g g' : rng) :
  reaches weibull t s g t' s' g' ->
  forall (fuel : nat) (res : Q * Simulator * rng),
    loop weibull fuel t s g = Some res ->
    exists fuel', loop weibull fuel' t' s' g' = Some res.
Proof.
  induction 1 as [t s g|t t1 t2 s s1 s2 g g1 g2 Hstep _ IH];
    intros fuel res Hl.
  - exists fuel. exact Hl.
  - destruct fuel as [|fuel]; [discriminate|].
    simpl in Hl. rewrite Hstep in Hl. exact (IH _ _ Hl).
Qed.

Lemma loop_result_reached (fuel : nat) :
  forall (t r : Q) (s s' : Simulator) (g g' : rng),
    loop weibull fuel t s g = Some (r, s', g') ->
    reaches weibull t s g r s' g'.
Proof.
  induction fuel as [|fuel IH]; intros t r s s' g g' H; [discriminate|].
  simpl in H. destruct (step weibull t s g) as [t1|t1 s1 g1] eqn:E.
  - rewrite step_dispatch in E. destruct (stops t s).
    + injection E as <-. injection H as <- <- <-. constructor.
    + destruct (selected s); discriminate.
  - eapply reaches_next; [exact E|]. apply IH. exact H.
Qed.

Lemma loop_result_bound (fuel : nat) (t r : Q) (s s' : Simulator) (g g' : rng) :
  valid_parameters s -> time_ordered t s ->
  loop weibull fuel t s g = Some (r, s', g') -> t <= r.
Proof.
  intros Hv Ho H. apply loop_result_reached in H.
  exact (proj1 (reaches_time_ordered _ _ _ _ _ _ H Hv Ho)).
Qed.

(** Every trial of the driver meets the two conditions: the simulator that
    [run_simulation] constructs does, and [reset] restores them. *)
Lemma initial_simulator_well_formed (g : rng) :
  valid_parameters (fst (initial_simulator weibull g)) /\
  time_ordered 0 (fst (initial_simulator weibull g)).
Proof.
  unfold initial_simulator. pose proof (weibull_nonneg q_slope g) as Hw.
  destruct (weibull q_slope g) as [w g']. simpl in *.
  unfold valid_parameters, time_ordered, q_scale. simpl.
  split; (split; [|split]); lra.
Qed.

Lemma reset_well_formed (s : Simulator) (g : rng) :
  valid_parameters s ->
  valid_parameters (fst (reset weibull s g)) /\
  time_ordered 0 (fst (reset weibull s g)).
Proof.
  intros (H1 & H2 & H3). unfold reset.
  pose proof (weibull_nonneg q_slope g) as Hw.
  destruct (weibull q_slope g) as [w g']. simpl in *.
  unfold valid_parameters, time_ordered, q_scale. simpl.
  split; (split; [|split]); lra.
Qed.

Lemma linked_well_formed (fuel : nat) (s s' : Simulator) (g g' : rng)
  (l : list (Trial rng)) :
  linked weibull fuel s g l s' g' ->
  valid_parameters s -> time_ordered 0 s ->
  Forall (fun e => valid_parameters (start_simulator e) /\
                   time_ordered 0 (start_simulator e)) l.
Proof.
  induction 1 as [s g|s sa sb s' g ga gb g' t l Hs Hr _ IH]; intros Hv Ho.
  - constructor.
  - constructor; [split; assumption|].
    assert (Hva : valid_parameters sa).
    { apply loop_same_config in Hs. unfold same_config in Hs.
      unfold valid_parameters in *.
      destruct Hs as (_ & _ & <- & _ & _ & <- & <-). exact Hv. }
    destruct (reset_well_formed sa ga Hva) as (Hvb & Hob).
    rewrite Hr in Hvb, Hob. exact (IH Hvb Hob).
Qed.

(** C7: in a trial on a simulator with non-negative scales and maintenance
    duration whose scheduled times are not negative, [current_time] never
    decreases from one iteration to the next, at any state the trial gets
    to; the returned time is at least the time of every such state; and the
    returned time is not negative. *)
Theorem current_time_monotone (s0 : Simulator) (g0 : rng) :
  valid_parameters s0 -> time_ordered 0 s0 ->
  (forall (t1 t2 : Q) (s1 s2 : Simulator) (g1 g2 : rng),
     reaches weibull 0 s0 g0 t1 s1 g1 ->
     step weibull t1 s1 g1 = Continue t2 s2 g2 -> t1 <= t2) /\
  (forall (fuel : nat) (r : Q) (sf : Simulator) (gf : rng),
     simulate weibull fuel s0 g0 = Some (r, sf, gf) ->
     0 <= r /\
     forall (t1 : Q) (s1 : Simulator) (g1 : rng),
       reaches weibull 0 s0 g0 t1 s1 g1 -> t1 <= r).
Proof.
  intros Hv Ho. split.
  - intros t1 t2 s1 s2 g1 g2 Hr Hstep.
    destruct (reaches_time_ordered _ _ _ _ _ _ Hr Hv Ho) as (_ & Hv1 & Ho1).
    exact (proj1 (step_time_ordered _ _ _ _ _ _ Hv1 Ho1 Hstep)).
  - intros fuel r sf gf Hsim. unfold simulate in Hsim. split.
    + exact (loop_result_bound _ _ _ _ _ _ _ Hv Ho Hsim).
    + intros t1 s1 g1 Hr.
      destruct (reaches_time_ordered _ _ _ _ _ _ Hr Hv Ho) as (_ & Hv1 & Ho1).
      destruct (reaches_loop _ _ _ _ _ _ Hr _ _ Hsim) as (fuel' & Hl).
      exact (loop_result_bound _ _ _ _ _ _ _ Hv1 Ho1 Hl).
Qed.

(** More fuel does not change what the loop returns. *)
Lemma loop_fuel_mono (fuel : nat) :
  forall (extra : nat) (t : Q) (s : Simulator) (g : rng)
         (res : Q * Simulator * rng),
    loop weibull fuel t s g = Some res ->
    loop weibull (fuel + extra) t s g = Some res.
Proof.
  induction fuel as [|fuel IH]; intros extra t s g res H; [discriminate|].
  simpl in *. destruct (step weibull t s g) as [t1|t1 s1 g1].
  - exact H.
  - apply IH. exact H.
Qed.

(** C5 (as amended): the loop of a trial has no iteration cap and no
    sentinel for a trial that does not end.  What holds for a valid
    configuration is that a trial that returns, returns a time that is not
    negative, and that the number of iterations allowed does not matter:
    with any larger allowance the trial returns the same time, simulator and
    generator. *)
Theorem trial_result_nonnegative
  (fuel : nat) (s : Simulator) (g : rng) (r : Q) (s' : Simulator) (g' : rng) :
  valid_parameters s -> time_ordered 0 s ->
  simulate weibull fuel s g = Some (r, s', g') ->
  0 <= r /\
  forall extra : nat, simulate weibull (fuel + extra) s g = Some (r, s', g').
Proof.
  intros Hv Ho H. split.
  - exact (loop_result_bound _ _ _ _ _ _ _ Hv Ho H).
  - intros extra. apply loop_fuel_mono. exact H.
Qed.

End Monotonicity.

(** ** A trial that does not end *)

(** Evaluates the comparisons of the goal that the hypotheses settle. *)
Ltac eval_tests :=
  repeat (match goal with
  | |- context [Qltb ?a ?b] =>
      first [ rewrite (proj2 (Qltb_true a b)) by lra
            | rewrite (proj2 (Qltb_false a b)) by lra ]
  | |- context [Qle_bool ?a ?b] =>
      first [ rewrite (proj2 (Qle_bool_iff a b)) by lra
            | rewrite (proj2 (Qle_bool_false a b)) by lra ]
  | |- context [Qeq_bool ?a ?b] =>
      first [ rewrite (proj2 (Qeq_bool_iff a b)) by lra
            | rewrite (proj2 (Qeq_bool_false a b)) by lra ]
  end; cbv beta iota delta [andb]).

Lemma cycle_step (t : Q) (s : Simulator) :
  in_cycle t s ->
  exists t' s',
    step (constant_weibull 1) t s tt = Continue t' s' tt /\ in_cycle t' s'.
Proof.
  intros (T & H).
  destruct s as [[n1 sh1 sc1 nm1 em1 f1] [n2 sh2 sc2 nm2 em2 f2] q md].
  unfold phase_quake, phase_device1, phase_device2, reference_parameters in H.
  simpl in H.
  unfold step, min3, handle_device1, handle_device2, handle_quake,
    constant_weibull.
  simpl.
  destruct H as [H|[H|H]];
    destruct H as ((Hs1 & Hs2 & Hmd) & Ht & Hn1 & He1 & Hn2 & He2 & Hq);
    eval_tests; simpl; eval_tests; (eexists; eexists; split; [reflexivity|]).
  - exists T. right; left.
    unfold phase_device1, reference_parameters. simpl.
    repeat split; lra.
  - exists T. right; right.
    unfold phase_device2, reference_parameters. simpl.
    repeat split; lra.
  - exists (T + 100). left.
    unfold phase_quake, reference_parameters. simpl.
    repeat split; lra.
Qed.

Lemma cycle_never_stops (fuel : nat) :
  forall (t : Q) (s : Simulator),
    in_cycle t s -> loop (constant_weibull 1) fuel t s tt = None.
Proof.
  induction fuel as [|fuel IH]; intros t s H; [reflexivity|].
  simpl. destruct (cycle_step t s H) as (t' & s' & -> & H').
  apply IH. exact H'.
Qed.

(** C5, as stated, fails: the simulator that [run_simulation] constructs
    (first quake at 200) is a valid configuration, and with every draw equal
    to 1 the loop of [simulate] never reaches its [break], whatever number of
    iterations is allowed: nothing caps it and no sentinel is returned. *)
Lemma trial_without_end_counterexample :
  valid_parameters reference_simulator /\
  time_ordered 0 reference_simulator /\
  forall fuel : nat,
    simulate (constant_weibull 1) fuel reference_simulator tt = None.
Proof.
  split; [unfold valid_parameters; repeat split; q_decide|].
  split; [unfold time_ordered; repeat split; q_decide|].
  intros fuel. unfold simulate.
  destruct fuel as [|[|[|fuel]]]; try reflexivity.
  change (loop (constant_weibull 1) fuel 200
            (mkSimulator (mkDevice "Device 1" 2 200 (200 + 30) (30 + 30) true)
               (mkDevice "Device 2" 3 100 (180 + 1 * 100) (180 + 30) false)
               (200 + 1 * 100) 30) tt = None).
  apply cycle_never_stops. exists 200. left.
  unfold phase_quake, reference_parameters. simpl.
  repeat split; lra.
Qed.

(** ** The Monte Carlo driver *)

Section Driver.

Context {rng : Type}.
Variable weibull : Q -> rng -> Q * rng.

(** The inner loop returns the times of the trials of its log. *)
Lemma run_trials_log (fuel n : nat) :
  forall (acc : list Q) (s : Simulator) (g : rng),
    run_trials weibull fuel n acc s g =
    match trial_log weibull fuel n s g with
    | None => None
    | Some (l, s', g') => Some (acc ++ sample l, s', g')
    end.
Proof.
  induction n as [|n IH]; intros acc s g; simpl.
  - rewrite app_nil_r. reflexivity.
  - destruct (simulate weibull fuel s g) as [[[t s1] g1]|]; [|reflexivity].
    destruct (reset weibull s1 g1) as [s2 g2]. rewrite IH.
    destruct (trial_log weibull fuel n s2 g2) as [[[l s3] g3]|];
      [|reflexivity].
    simpl. rewrite <- app_assoc. reflexivity.
Qed.

(** The outer loop returns the means of the Samples of its log. *)
Lemma run_batches_log (fuel : nat) (runs : list nat) :
  forall (acc : list Q) (s : Simulator) (g : rng),
    run_batches weibull fuel runs acc s g =
    match batch_log weibull fuel runs s g with
    | None => None
    | Some (ls, s', g') => Some (acc ++ map sample_mean ls, s', g')
    end.
Proof.
  induction runs as [|n rest IH]; intros acc s g; simpl.
  - rewrite app_nil_r. reflexivity.
  - rewrite run_trials_log.
    destruct (trial_log weibull fuel n s g) as [[[l s1] g1]|]; [|reflexivity].
    rewrite IH.
    destruct (batch_log weibull fuel rest s1 g1) as [[[ls s2] g2]|];
      [|reflexivity].
    simpl. rewrite <- app_assoc. reflexivity.
Qed.

Lemma trial_log_linked (fuel n : nat) :
  forall (s s' : Simulator) (g g' : rng) (l : list (Trial rng)),
    trial_log weibull fuel n s g = Some (l, s', g') ->
    List.length l = n /\ linked weibull fuel s g l s' g'.
Proof.
  induction n as [|n IH]; intros s s' g g' l H; simpl in H.
  - injection H as <- <- <-. split; [reflexivity|constructor].
  - destruct (simulate weibull fuel s g) as [[[t s1] g1]|] eqn:Es;
      [|discriminate].
    destruct (reset weibull s1 g1) as [s2 g2] eqn:Er.
    destruct (trial_log weibull fuel n s2 g2) as [[[l' s3] g3]|] eqn:El;
      [|discriminate].
    injection H as <- <- <-. destruct (IH _ _ _ _ _ El) as (Hn & Hl).
    split; [simpl; congruence|].
    exact (linked_cons weibull fuel _ _ _ _ _ _ _ _ _ _ Es Er Hl).
Qed.

Lemma linked_app (fuel : nat) (s1 s2 s3 : Simulator) (g1 g2 g3 : rng)
  (l1 l2 : list (Trial rng)) :
  linked weibull fuel s1 g1 l1 s2 g2 ->
  linked weibull fuel s2 g2 l2 s3 g3 ->
  linked weibull fuel s1 g1 (l1 ++ l2) s3 g3.
Proof.
  induction 1 as [s g|s sa sb s' g ga gb g' t l Hs Hr _ IH]; intros H2.
  - exact H2.
  - simpl. exact (linked_cons weibull fuel _ _ _ _ _ _ _ _ _ _ Hs Hr (IH H2)).
Qed.

Lemma batch_log_linked (fuel : nat) (runs : list nat) :
  forall (s s' : Simulator) (g g' : rng) (ls : list (list (Trial rng))),
    batch_log weibull fuel runs s g = Some (ls, s', g') ->
    Forall2 (fun n l => List.length l = n) runs ls /\
    linked weibull fuel s g (List.concat ls) s' g'.
Proof.
  induction runs as [|n rest IH]; intros s s' g g' ls H; simpl in H.
  - injection H as <- <- <-. split; constructor.
  - destruct (trial_log weibull fuel n s g) as [[[l s1] g1]|] eqn:El;
      [|discriminate].
    destruct (batch_log weibull fuel rest s1 g1) as [[[ls' s2] g2]|] eqn:Eb;
      [|discriminate].
    injection H as <- <- <-.
    destruct (trial_log_linked _ _ _ _ _ _ _ El) as (Hn & Hl).
    destruct (IH _ _ _ _ _ Eb) as (Hf & Hls).
    split; [constructor; assumption|].
    simpl. exact (linked_app _ _ _ _ _ _ _ _ _ Hl Hls).
Qed.

(** Where the trials of a linked sequence start: the first from the given
    simulator, the others from reset devices. *)
Lemma linked_starts (fuel : nat) (s s' : Simulator) (g g' : rng)
  (l : list (Trial rng)) :
  linked weibull fuel s g l s' g' ->
  same_config s s' /\
  match l with
  | [] => s' = s
  | first :: rest =>
      start_simulator first = s /\
      Forall (fun e => reset_devices_of s (start_simulator e)) rest /\
      reset_devices_of s s'
  end.
Proof.
  induction 1 as [s g|s sa sb s' g ga gb g' t l Hs Hr _ IH].
  - split; [apply same_config_refl|reflexivity].
  - destruct IH as (Hc & Hl).
    assert (Hsa : same_config s sa) by exact (loop_same_config _ _ _ _ _ _ _ _ Hs).
    assert (Hb : sb = fst (reset weibull sa ga)) by (rewrite Hr; reflexivity).
    assert (Hrb : reset_devices_of s sb).
    { rewrite Hb, reset_devices. unfold reset_devices_of, same_config in *.
      simpl. destruct Hsa as (-> & -> & -> & -> & -> & -> & _).
      split; reflexivity. }
    assert (Hsb : same_config s sb).
    { destruct Hrb as (E1 & E2). unfold same_config.
      rewrite E1, E2. simpl. rewrite Hb, reset_devices. simpl.
      destruct Hsa as (_ & _ & _ & _ & _ & _ & ->). repeat split. }
    assert (Hsame : forall x, reset_devices_of sb x -> reset_devices_of s x).
    { intros x (E1 & E2). destruct Hrb as (F1 & F2).
      unfold reset_devices_of. rewrite E1, E2, F1, F2. simpl.
      split; reflexivity. }
    split; [exact (same_config_trans _ _ _ Hsb Hc)|].
    simpl. split; [reflexivity|].
    destruct l as [|e rest].
    + subst s'. split; [constructor|exact Hrb].
    + destruct Hl as (He & Hrest & Hend).
      split; [|exact (Hsame _ Hend)].
      constructor.
      * rewrite He. exact Hrb.
      * eapply Forall_impl; [|exact Hrest]. intros x Hx. exact (Hsame _ Hx).
Qed.

Lemma linked_genuine (fuel : nat) (s s' : Simulator) (g g' : rng)
  (l : list (Trial rng)) :
  linked weibull fuel s g l s' g' ->
  Forall (fun e => exists s1 g1,
            simulate weibull fuel (start_simulator e) (start_generator e)
              = Some (termination_time e, s1, g1)) l.
Proof.
  induction 1 as [s g|s sa sb s' g ga gb g' t l Hs Hr _ IH];
    constructor; [|exact IH].
  exists sa, ga. exact Hs.
Qed.

Lemma map_fst_combine (A B : Type) (l : list A) :
  forall l' : list B,
    List.length l = List.length l' -> map fst (combine l l') = l.
Proof.
  induction l as [|a l IH]; intros [|b l'] H; simpl in *;
    try reflexivity; try discriminate.
  f_equal. apply IH. congruence.
Qed.

Lemma map_snd_combine (A B : Type) (l : list A) :
  forall l' : list B,
    List.length l = List.length l' -> map snd (combine l l') = l'.
Proof.
  induction l as [|a l IH]; intros [|b l'] H; simpl in *;
    try reflexivity; try discriminate.
  f_equal. apply IH. congruence.
Qed.

(** [reset], written out. *)
Lemma reset_fresh (s : Simulator) (g : rng) :
  reset weibull s g =
  (fresh_simulator s (fst (weibull q_slope g) * q_scale),
   snd (weibull q_slope g)).
Proof.
  unfold reset, fresh_simulator. destruct (weibull q_slope g). reflexivity.
Qed.

Lemma linked_fresh (fuel : nat) (s s' : Simulator) (g g' : rng)
  (l : list (Trial rng)) :
  linked weibull fuel s g l s' g' -> fresh_trials weibull fuel s g l.
Proof.
  induction 1 as [s g|s sa sb s' g ga gb g' t l Hs Hr _ IH].
  - constructor.
  - rewrite reset_fresh in Hr. injection Hr as <- <-.
    exact (fresh_trials_cons weibull fuel _ _ _ _ _ _ Hs IH).
Qed.

(** The points of the plot, written out from the trials of each count. *)
Lemma convergence_points_explicit (runs : list nat)
  (logs : list (list (Trial rng))) :
  Forall2 (fun n l => List.length l = n) runs logs ->
  convergence_points runs (map sample_mean logs) =
  map (fun l =>
         (1 / inject_Z (Z.of_nat (List.length l)),
          fold_left Qplus (map termination_time l) 0
            / inject_Z (Z.of_nat (List.length l)))) logs.
Proof.
  unfold convergence_points.
  induction 1 as [|n l runs logs Hn _ IH]; simpl; [reflexivity|].
  rewrite IH. subst n.
  unfold inverse_count, sample_mean, mean, sample. rewrite length_map.
  reflexivity.
Qed.

(** C8 (as amended): a run of the driver need not return, since a trial may
    never end.  When it returns for a schedule of positive trial counts
    (geometric or not), it returns one convergence point per count, in the
    order of the schedule.  The trials are successive calls of [simulate]
    that return: the first starts from the constructed simulator and each
    later one from freshly reset devices with a freshly drawn quake time.
    The count [n] has the termination times of [n] of these trials as its
    Sample, and its point is [1/n] paired with the sum of the Sample over
    [n].  For the schedule [[1000; 2000; 4000]] there are 3 points, with
    abscissae [1/1000], [1/2000] and [1/4000] in this order. *)
Theorem convergence_trace
  (fuel : nat) (runs : list nat) (g : rng) (points : list (Q * Q)) :
  Forall (fun n => (0 < n)%nat) runs ->
  run_simulation_on weibull fuel runs g = Some points ->
  exists trials : list (list (Trial rng)),
    Forall2 (fun n l => List.length l = n) runs trials /\
    fresh_trials weibull fuel
      (mkSimulator initial_device1 initial_device2
         (fst (weibull q_slope g) * q_scale) 30)
      (snd (weibull q_slope g)) (List.concat trials) /\
    points =
      map (fun l =>
             (1 / inject_Z (Z.of_nat (List.length l)),
              fold_left Qplus (map termination_time l) 0
                / inject_Z (Z.of_nat (List.length l)))) trials /\
    List.length points = List.length runs /\
    map fst points = map (fun n => 1 / inject_Z (Z.of_nat n)) runs /\
    (runs = [1000; 2000; 4000]%nat ->
     List.length points = 3%nat /\
     map fst points = [1 # 1000; 1 # 2000; 1 # 4000]).
Proof.
  intros _. unfold run_simulation_on, initial_simulator.
  destruct (weibull q_slope g) as [w g0]. simpl fst. simpl snd.
  rewrite run_batches_log. simpl.
  destruct (batch_log weibull fuel runs _ g0) as [[[logs s'] g']|] eqn:Eb;
    [|discriminate].
  intros H. injection H as <-.
  destruct (batch_log_linked _ _ _ _ _ _ _ Eb) as (Hn & Hl).
  assert (Hlen : List.length (map inverse_count runs)
                 = List.length (map sample_mean logs)).
  { rewrite !length_map. exact (Forall2_length Hn). }
  assert (Hp : List.length (convergence_points runs (map sample_mean logs))
               = List.length runs).
  { unfold convergence_points. rewrite length_combine, <- Hlen, Nat.min_id.
    apply length_map. }
  assert (Hx : map fst (convergence_points runs (map sample_mean logs))
               = map (fun n => 1 / inject_Z (Z.of_nat n)) runs)
    by (apply map_fst_combine; exact Hlen).
  exists logs. split; [exact Hn|].
  split; [exact (linked_fresh _ _ _ _ _ _ Hl)|].
  split; [exact (convergence_points_explicit _ _ Hn)|].
  split; [exact Hp|]. split; [exact Hx|].
  intros ->. split; [exact Hp|]. rewrite Hx. reflexivity.
Qed.

(** C10: in a run of the driver from the simulator that [run_simulation]
    constructs, [reset] is called after each trial and never before the
    first.  The first trial of the run starts from the constructed devices,
    with [next_maintenance] 30 and 180; every later trial, the first trial of
    a later batch included, starts from reset devices, with
    [next_maintenance] 200 and 100, the scales: the later trials do not start
    as the first one does. *)
Theorem reset_after_each_trial
  (fuel : nat) (runs : list nat) (g : rng)
  (average_times : list Q) (s' : Simulator) (g' : rng) :
  run_batches weibull fuel runs [] (fst (initial_simulator weibull g))
    (snd (initial_simulator weibull g)) = Some (average_times, s', g') ->
  exists logs : list (list (Trial rng)),
    batch_log weibull fuel runs (fst (initial_simulator weibull g))
      (snd (initial_simulator weibull g)) = Some (logs, s', g') /\
    average_times = map sample_mean logs /\
    linked weibull fuel (fst (initial_simulator weibull g))
      (snd (initial_simulator weibull g)) (List.concat logs) s' g' /\
    match List.concat logs with
    | [] => True
    | first :: rest =>
        start_simulator first = fst (initial_simulator weibull g) /\
        device1 (start_simulator first) = mkDevice "Device 1" 2 200 30 0 false /\
        device2 (start_simulator first) = mkDevice "Device 2" 3 100 180 0 false /\
        Forall (fun e =>
                  device1 (start_simulator e)
                    = mkDevice "Device 1" 2 200 200 0 false /\
                  device2 (start_simulator e)
                    = mkDevice "Device 2" 3 100 100 0 false /\
                  ~ next_maintenance (device1 (start_simulator e))
                    == next_maintenance (device1 (start_simulator first)) /\
                  ~ next_maintenance (device2 (start_simulator e))
                    == next_maintenance (device2 (start_simulator first)))
          rest
    end.
Proof.
  rewrite run_batches_log.
  destruct (batch_log weibull fuel runs _ _) as [[[logs s1] g1]|] eqn:Eb;
    [|discriminate].
  intros H. injection H as <- <- <-.
  destruct (batch_log_linked _ _ _ _ _ _ _ Eb) as (_ & Hl).
  exists logs. split; [reflexivity|]. split; [reflexivity|].
  split; [exact Hl|].
  pose proof (linked_starts _ _ _ _ _ _ Hl) as (_ & Hs).
  destruct (List.concat logs) as [|first rest]; [exact I|].
  destruct Hs as (Hf & Hrest & _).
  assert (Hd : device1 (fst (initial_simulator weibull g)) = initial_device1 /\
               device2 (fst (initial_simulator weibull g)) = initial_device2).
  { unfold initial_simulator. destruct (weibull q_slope g). split; reflexivity. }
  destruct Hd as (Hd1 & Hd2).
  split; [exact Hf|]. rewrite Hf, Hd1, Hd2.
  split; [reflexivity|]. split; [reflexivity|].
  eapply Forall_impl; [|exact Hrest].
  intros e (E1 & E2). rewrite E1, E2, Hd1, Hd2. simpl.
  repeat split; q_decide.
Qed.

End Driver.

(** *** Reset, [failed] and time on concrete inputs *)

Lemma constant_weibull_nonneg (w : Q) :
  0 <= w -> forall (a : Q) (g : unit), 0 <= fst (constant_weibull w a g).
Proof. intros H a g. exact H. Qed.

(** With every draw equal to one half, the first trial of [run_simulation]
    sees the maintenance of device 1 at 30, the quake at 100, the repair of
    device 1 at 130 and the deferred repair of device 2 at 130, and ends at
    time 130, the quake being due at 150. *)
Example half_trial_ends :
  exists (r : Q) (s' : Simulator),
    simulate (constant_weibull (1 # 2)) 5 half_simulator tt = Some (r, s', tt) /\
    r == 130 /\ quake s' == 150 /\
    end_maintenance (device1 s') == 160 /\
    end_maintenance (device2 s') == 160.
Proof.
  eexists; eexists. split; [vm_compute; reflexivity|].
  repeat split.
Qed.

(** C3, as stated, fails: the simulator that [run_simulation] constructs has
    devices configured with [next_maintenance] 30 and 180; after [reset] they
    have 200 and 100, their scales. *)
Lemma reset_not_constructed_counterexample :
  next_maintenance (device1 reference_simulator) = 30 /\
  next_maintenance (device2 reference_simulator) = 180 /\
  next_maintenance
    (device1 (fst (reset (constant_weibull 1) reference_simulator tt))) = 200 /\
  next_maintenance
    (device2 (fst (reset (constant_weibull 1) reference_simulator tt))) = 100 /\
  ~ next_maintenance
      (device1 (fst (reset (constant_weibull 1) reference_simulator tt)))
    == next_maintenance (device1 reference_simulator) /\
  ~ next_maintenance
      (device2 (fst (reset (constant_weibull 1) reference_simulator tt)))
    == next_maintenance (device2 reference_simulator).
Proof.
  repeat split; try reflexivity; q_decide.
Qed.

Lemma reset_state_witness :
  exists (r : Q) (s1 : Simulator),
    simulate (constant_weibull (1 # 2)) 5 half_simulator tt = Some (r, s1, tt) /\
    device1 (fst (reset (constant_weibull (1 # 2)) s1 tt))
      = mkDevice "Device 1" 2 200 200 0 false /\
    device2 (fst (reset (constant_weibull (1 # 2)) s1 tt))
      = mkDevice "Device 2" 3 100 100 0 false.
Proof.
  destruct (simulate (constant_weibull (1 # 2)) 5 half_simulator tt)
    as [[[r s1] []]|] eqn:E.
  2: { vm_compute in E. discriminate E. }
  exists r, s1. split; [reflexivity|].
  destruct (proj2 (reset_state (constant_weibull (1 # 2)) half_simulator tt)
              5%nat r s1 tt tt E) as (H1 & H2).
  rewrite H1, H2.
  destruct (proj1 (reset_state (constant_weibull (1 # 2)) half_simulator tt))
    as (E1 & E2 & _).
  rewrite E1, E2. split; reflexivity.
Defined.

Lemma failed_is_write_only_witness :
  sim_same_but_failed half_simulator half_simulator_failed /\
  exists (r : Q) (s1 s2 : Simulator),
    loop (constant_weibull (1 # 2)) 5 0 half_simulator tt = Some (r, s1, tt) /\
    loop (constant_weibull (1 # 2)) 5 0 half_simulator_failed tt
      = Some (r, s2, tt) /\
    sim_same_but_failed s1 s2.
Proof.
  assert (H : sim_same_but_failed half_simulator half_simulator_failed)
    by (unfold sim_same_but_failed, same_but_failed; simpl; repeat split).
  split; [exact H|].
  destruct (failed_is_write_only (constant_weibull (1 # 2)) 5 0
              half_simulator half_simulator_failed tt H) as (_ & _ & _ & Hl).
  destruct (loop (constant_weibull (1 # 2)) 5 0 half_simulator tt)
    as [[[r1 s1] g1]|] eqn:E1.
  2: { vm_compute in E1. discriminate E1. }
  destruct (loop (constant_weibull (1 # 2)) 5 0 half_simulator_failed tt)
    as [[[r2 s2] g2]|] eqn:E2.
  2: { contradiction. }
  destruct Hl as (-> & -> & Hs). destruct g2.
  exists r2, s1, s2. split; [reflexivity|]. split; [reflexivity|exact Hs].
Defined.

Lemma current_time_monotone_witness :
  (forall (a : Q) (g : unit), 0 <= fst (constant_weibull (1 # 2) a g)) /\
  valid_parameters half_simulator /\
  time_ordered 0 half_simulator /\
  (forall (t1 t2 : Q) (s1 s2 : Simulator) (g1 g2 : unit),
     reaches (constant_weibull (1 # 2)) 0 half_simulator tt t1 s1 g1 ->
     step (constant_weibull (1 # 2)) t1 s1 g1 = Continue t2 s2 g2 ->
     t1 <= t2) /\
  exists (r : Q) (sf : Simulator),
    simulate (constant_weibull (1 # 2)) 5 half_simulator tt = Some (r, sf, tt) /\
    0 <= r /\
    forall (t1 : Q) (s1 : Simulator) (g1 : unit),
      reaches (constant_weibull (1 # 2)) 0 half_simulator tt t1 s1 g1 ->
      t1 <= r.
Proof.
  assert (Hw : forall (a : Q) (g : unit), 0 <= fst (constant_weibull (1 # 2) a g))
    by (intros a g; q_decide).
  assert (Hv : valid_parameters half_simulator)
    by (unfold valid_parameters; repeat split; q_decide).
  assert (Ho : time_ordered 0 half_simulator)
    by (unfold time_ordered; repeat split; q_decide).
  split; [exact Hw|]. split; [exact Hv|]. split; [exact Ho|].
  destruct (current_time_monotone (constant_weibull (1 # 2)) Hw
              half_simulator tt Hv Ho) as (Hmono & Hres).
  split; [exact Hmono|].
  destruct (simulate (constant_weibull (1 # 2)) 5 half_simulator tt)
    as [[[r sf] []]|] eqn:E.
  2: { vm_compute in E. discriminate E. }
  exists r, sf. split; [reflexivity|].
  exact (Hres 5%nat r sf tt E).
Defined.

Lemma trial_result_nonnegative_witness :
  exists (r : Q) (s' : Simulator),
    simulate (constant_weibull (1 # 2)) 5 half_simulator tt = Some (r, s', tt) /\
    0 <= r /\
    forall extra : nat,
      simulate (constant_weibull (1 # 2)) (5 + extra) half_simulator tt
        = Some (r, s', tt).
Proof.
  destruct (simulate (constant_weibull (1 # 2)) 5 half_simulator tt)
    as [[[r s'] []]|] eqn:E.
  2: { vm_compute in E. discriminate E. }
  exists r, s'. split; [reflexivity|].
  apply (trial_result_nonnegative (constant_weibull (1 # 2))
           (constant_weibull_nonneg (1 # 2) ltac:(q_decide))
           5 half_simulator tt r s' tt).
  - unfold valid_parameters; repeat split; q_decide.
  - unfold time_ordered; repeat split; q_decide.
  - exact E.
Defined.

(** The trial of the reference simulator with every draw equal to 1, once
    more: it runs out of any fuel. *)
Lemma reference_trial_never_ends (fuel : nat) :
  simulate (constant_weibull 1) fuel reference_simulator tt = None.
Proof.
  unfold simulate.
  destruct fuel as [|[|[|fuel]]]; try reflexivity.
  change (loop (constant_weibull 1) fuel 200
            (mkSimulator (mkDevice "Device 1" 2 200 (200 + 30) (30 + 30) true)
               (mkDevice "Device 2" 3 100 (180 + 1 * 100) (180 + 30) false)
               (200 + 1 * 100) 30) tt = None).
  apply cycle_never_stops. exists 200. left.
  unfold phase_quake, reference_parameters. simpl.
  repeat split; lra.
Qed.

Lemma run_batches_first_trial_without_end
  (rng : Type) (weibull : Q -> rng -> Q * rng) (fuel n : nat)
  (rest : list nat) (acc : list Q) (s : Simulator) (g : rng) :
  simulate weibull fuel s g = None ->
  run_batches weibull fuel (S n :: rest) acc s g = None.
Proof. intros H. simpl. rewrite H. reflexivity. Qed.

(** C8, as stated, fails: the schedule [[1000; 2000; 4000]] is a geometric
    progression of positive counts, and with every draw equal to 1 the
    driver produces no convergence point at all, whatever number of
    iterations a trial is allowed: its first trial never ends. *)
Lemma driver_without_points_counterexample :
  Forall (fun n => (0 < n)%nat) [1000; 2000; 4000]%nat /\
  (2000 = 2 * 1000 /\ 4000 = 2 * 2000)%nat /\
  forall fuel : nat,
    run_simulation_on (constant_weibull 1) fuel [1000; 2000; 4000]%nat tt
      = None.
Proof.
  split.
  { repeat (apply Forall_cons; [apply Nat.lt_0_succ|]). apply Forall_nil. }
  split; [split; reflexivity|].
  intros fuel. unfold run_simulation_on.
  change (initial_simulator (constant_weibull 1) tt)
    with (reference_simulator, tt).
  cbv beta iota.
  rewrite (run_batches_first_trial_without_end unit (constant_weibull 1)
             fuel 999 [2000; 4000]%nat [] reference_simulator tt
             (reference_trial_never_ends fuel)).
  reflexivity.
Qed.

Lemma convergence_trace_witness :
  Forall (fun n => (0 < n)%nat) [1000; 2000; 4000]%nat /\
  exists points : list (Q * Q),
    run_simulation_on list_weibull 5 [1000; 2000; 4000]%nat five_halves
      = Some points /\
    List.length points = 3%nat /\
    map fst points = [1 # 1000; 1 # 2000; 1 # 4000] /\
    Forall2 Qeq (map snd points) [19993 # 100; 200; 200].
Proof.
  assert (Hpos : Forall (fun n => (0 < n)%nat) [1000; 2000; 4000]%nat)
    by (repeat (apply Forall_cons; [apply Nat.lt_0_succ|]); apply Forall_nil).
  split; [exact Hpos|].
  assert (Hrun : exists points : list (Q * Q),
             run_simulation_on list_weibull 5 [1000; 2000; 4000]%nat
               five_halves = Some points /\
             Forall2 Qeq (map snd points) [19993 # 100; 200; 200]).
  { eexists. split; [vm_compute; reflexivity|]. repeat constructor. }
  destruct Hrun as (points & E & Hy).
  exists points. split; [exact E|].
  destruct (convergence_trace list_weibull _ _ _ _ Hpos E)
    as (trials & _ & _ & _ & _ & _ & H).
  destruct (H eq_refl) as (H3 & Hx).
  split; [exact H3|]. split; [exact Hx|exact Hy].
Defined.

Lemma reset_after_each_trial_witness :
  exists (average_times : list Q) (s' : Simulator)
         (logs : list (list (Trial unit))),
    run_batches (constant_weibull (1 # 2)) 5 [2; 3]%nat []
      (fst (initial_simulator (constant_weibull (1 # 2)) tt))
      (snd (initial_simulator (constant_weibull (1 # 2)) tt))
      = Some (average_times, s', tt) /\
    batch_log (constant_weibull (1 # 2)) 5 [2; 3]%nat
      (fst (initial_simulator (constant_weibull (1 # 2)) tt))
      (snd (initial_simulator (constant_weibull (1 # 2)) tt))
      = Some (logs, s', tt) /\
    List.length (List.concat logs) = 5%nat /\
    map (fun e => next_maintenance (device1 (start_simulator e)))
      (List.concat logs) = [30; 200; 200; 200; 200].
Proof.
  destruct (run_batches (constant_weibull (1 # 2)) 5 [2; 3]%nat []
              (fst (initial_simulator (constant_weibull (1 # 2)) tt))
              (snd (initial_simulator (constant_weibull (1 # 2)) tt)))
    as [[[avgs s'] []]|] eqn:E.
  2: { vm_compute in E. discriminate E. }
  destruct (reset_after_each_trial (constant_weibull (1 # 2)) _ _ _ _ _ _ E)
    as (logs & Hb & _ & _ & Hstarts).
  exists avgs, s', logs. split; [reflexivity|]. split; [exact Hb|].
  vm_compute in Hb. injection Hb as <- _. split; reflexivity.
Defined.

(** ** Further properties of the loop body *)

Section LoopBody.

Context {rng : Type}.
Variable weibull : Q -> rng -> Q * rng.

Lemma seismic_next_event (s : Simulator) :
  selected s = Seismic -> next_event s = quake s.
Proof.
  unfold selected. intros Hsel.
  destruct (Qeq_bool (next_event s) (next_maintenance (device1 s))) eqn:E1;
    [discriminate|].
  destruct (Qeq_bool (next_event s) (next_maintenance (device2 s))) eqn:E2;
    [discriminate|].
  reflect_hyps. unfold next_event in *.
  destruct (min3_cases (next_maintenance (device1 s))
              (next_maintenance (device2 s)) (quake s)) as [H|[H|H]];
    try exact H; rewrite H in *.
  - exfalso. apply E1. reflexivity.
  - exfalso. apply E2. reflexivity.
Qed.

Lemma next_event_lower (t : Q) (s : Simulator) :
  time_ordered t s -> t <= next_event s.
Proof.
  intros (H1 & H2 & H3). unfold next_event.
  destruct (min3_cases (next_maintenance (device1 s))
              (next_maintenance (device2 s)) (quake s)) as [E|[E|E]];
    rewrite E; assumption.
Qed.

(** What an iteration that goes on returns, by the event handled. *)
Lemma step_continue (t t' : Q) (s s' : Simulator) (g g' : rng) :
  step weibull t s g = Continue t' s' g' ->
  stops t s = false /\ t' = next_event s /\
  (s', g') =
    match selected s with
    | Maintenance1 => handle_device1 weibull (next_event s) s g
    | Maintenance2 => handle_device2 weibull (next_event s) s g
    | Seismic => handle_quake weibull (next_event s) s g
    end.
Proof.
  rewrite step_dispatch. destruct (stops t s); [discriminate|].
  destruct (selected s); intros H; injection H as <- <- <-;
    (split; [reflexivity|]); (split; [reflexivity|]);
    match goal with |- _ = ?h => destruct h; reflexivity end.
Qed.

(** The [failed] flag of a device is cleared by the maintenance of that
    device and by nothing else, and it is set by a seismic event that finds
    the device outside its window and by nothing else. *)
Theorem failed_changes_only_by_own_events
  (t t' : Q) (s s' : Simulator) (g g' : rng) :
  step weibull t s g = Continue t' s' g' ->
  (selected s = Maintenance1 -> failed (device1 s') = false) /\
  (selected s = Maintenance2 -> failed (device2 s') = false) /\
  (failed (device1 s') <> failed (device1 s) ->
   (selected s = Maintenance1 /\ failed (device1 s') = false) \/
   (selected s = Seismic /\ failed (device1 s') = true /\
    end_maintenance (device1 s) <= t')) /\
  (failed (device2 s') <> failed (device2 s) ->
   (selected s = Maintenance2 /\ failed (device2 s') = false) \/
   (selected s = Seismic /\ failed (device2 s') = true /\
    end_maintenance (device2 s) <= t')).
Proof.
  intros H. apply step_continue in H. destruct H as (_ & -> & H).
  destruct (selected s).
  - rewrite handle_device1_spec in H. injection H as -> _. simpl.
    split; [reflexivity|]. split; [discriminate|].
    split; intros Hf; [left; split; reflexivity|contradiction Hf; reflexivity].
  - rewrite handle_device2_spec in H. injection H as -> _. simpl.
    split; [discriminate|]. split; [reflexivity|].
    split; intros Hf; [contradiction Hf; reflexivity|left; split; reflexivity].
  - rewrite handle_quake_spec in H. injection H as -> _.
    unfold quake_effect. simpl.
    split; [discriminate|]. split; [discriminate|].
    split; intros Hf; right;
      match type of Hf with
      | context [Qle_bool ?a ?b] => destruct (Qle_bool a b) eqn:E
      end; simpl in Hf;
      try (contradiction Hf; reflexivity);
      apply Qle_bool_iff in E; repeat split; assumption.
Qed.

(** The loop is never left right after a seismic event.  When the state
    that an iteration leaves passes the [break] test, the event handled by
    that iteration was the maintenance of a device that found the other
    device inside its window, and it was deferred to the end of that window
    plus one. *)
Theorem break_follows_deferred_maintenance
  (t t' : Q) (s s' : Simulator) (g g' : rng) :
  time_ordered t s ->
  step weibull t s g = Continue t' s' g' ->
  stops t' s' = true ->
  (selected s = Maintenance1 /\ t' < end_maintenance (device2 s) /\
   next_maintenance (device1 s') = end_maintenance (device2 s) + 1) \/
  (selected s = Maintenance2 /\ t' < end_maintenance (device1 s) /\
   next_maintenance (device2 s') = end_maintenance (device1 s) + 1).
Proof.
  intros Ho H Hstop. pose proof (next_event_lower t s Ho) as Lt.
  apply step_continue in H. destruct H as (Hgo & -> & H).
  unfold stops, both_in_maintenance in Hstop.
  apply andb_true_iff in Hstop. destruct Hstop as (Hq & Hb).
  apply andb_true_iff in Hb. destruct Hb as (Hb1 & Hb2).
  destruct (selected s) eqn:Hsel.
  - rewrite handle_device1_spec in H. injection H as -> _. simpl in *.
    left. split; [reflexivity|]. rewrite Hb2.
    split; [apply Qltb_true; exact Hb2|reflexivity].
  - rewrite handle_device2_spec in H. injection H as -> _. simpl in *.
    right. split; [reflexivity|]. rewrite Hb1.
    split; [apply Qltb_true; exact Hb1|reflexivity].
  - exfalso. rewrite handle_quake_spec in H. injection H as -> _.
    unfold quake_effect in *. simpl in *.
    assert (E1 : next_event s < end_maintenance (device1 s)).
    { destruct (Qle_bool (end_maintenance (device1 s)) (next_event s)) eqn:E;
        simpl in Hb1; reflect_hyps; lra. }
    assert (E2 : next_event s < end_maintenance (device2 s)).
    { destruct (Qle_bool (end_maintenance (device2 s)) (next_event s)) eqn:E;
        simpl in Hb2; reflect_hyps; lra. }
    unfold stops, both_in_maintenance in Hgo.
    rewrite (seismic_next_event s Hsel), Qeq_bool_refl in Hgo.
    rewrite (proj2 (Qltb_true t _)), (proj2 (Qltb_true t _)) in Hgo
      by lra.
    discriminate Hgo.
Qed.

End LoopBody.

(** ** Further properties of a trial *)

Section TrialProperties.

Context {rng : Type}.
Variable weibull : Q -> rng -> Q * rng.

(** A trial that returns is left by the [break]: in the simulator it leaves
    the quake is the next event and the returned time is inside the windows
    of both devices; the returned simulator and generator are those of the
    last iteration. *)
Theorem trial_ends_in_double_maintenance
  (fuel : nat) (s s' : Simulator) (g g' : rng) (r : Q) :
  simulate weibull fuel s g = Some (r, s', g') ->
  reaches weibull 0 s g r s' g' /\
  next_event s' == quake s' /\
  r < end_maintenance (device1 s') /\
  r < end_maintenance (device2 s').
Proof.
  unfold simulate. generalize 0 as t. revert s g.
  induction fuel as [|fuel IH]; intros s g t H; [discriminate|].
  simpl in H. destruct (step weibull t s g) as [t1|t1 s1 g1] eqn:E.
  - injection H as <- <- <-. rewrite step_dispatch in E.
    destruct (stops t s) eqn:Hs; [|destruct (selected s); discriminate].
    injection E as <-. split; [constructor|].
    unfold stops, both_in_maintenance in Hs.
    apply andb_true_iff in Hs. destruct Hs as (Hq & Hb).
    apply andb_true_iff in Hb. destruct Hb as (H1 & H2).
    reflect_hyps. repeat split; assumption.
  - destruct (IH _ _ _ H) as (Hr & Hrest).
    split; [exact (reaches_next weibull _ _ _ _ _ _ _ _ _ E Hr)|exact Hrest].
Qed.

Section NonNegativeDraws.

Hypothesis weibull_nonneg : forall (a : Q) (g : rng), 0 <= fst (weibull a g).

Lemma step_window_bounded (t t' : Q) (s s' : Simulator) (g g' : rng) :
  time_ordered t s -> window_bounded t s ->
  step weibull t s g = Continue t' s' g' ->
  window_bounded t' s'.
Proof.
  intros Ho (B1 & B2) H. pose proof (next_event_lower t s Ho) as Lt.
  apply step_continue in H. destruct H as (_ & -> & H).
  unfold window_bounded. destruct (selected s).
  - rewrite handle_device1_spec in H. injection H as -> _. simpl.
    split; lra.
  - rewrite handle_device2_spec in H. injection H as -> _. simpl.
    split; lra.
  - rewrite handle_quake_spec in H. injection H as -> _.
    unfold quake_effect. simpl.
    destruct (Qle_bool (end_maintenance (device1 s)) (next_event s));
      destruct (Qle_bool (end_maintenance (device2 s)) (next_event s));
      simpl; split; lra.
Qed.

(** Along a trial no event is ever scheduled in the past and no window ever
    extends beyond the current time by more than the maintenance duration. *)
Theorem schedule_invariant
  (t0 t : Q) (s0 s : Simulator) (g0 g : rng) :
  valid_parameters s0 -> time_ordered t0 s0 -> window_bounded t0 s0 ->
  reaches weibull t0 s0 g0 t s g ->
  time_ordered t s /\ window_bounded t s.
Proof.
  intros Hv Ho Hb Hr. revert Hv Ho Hb.
  induction Hr as [t s g|t t1 t2 s s1 s2 g g1 g2 Hstep _ IH]; intros Hv Ho Hb.
  - split; assumption.
  - apply IH.
    + exact (step_valid_parameters weibull _ _ _ _ _ _ Hstep Hv).
    + exact (proj2 (step_time_ordered weibull weibull_nonneg
                      _ _ _ _ _ _ Hv Ho Hstep)).
    + exact (step_window_bounded _ _ _ _ _ _ Ho Hb Hstep).
Qed.

(** A trial that does not start with both devices inside a window does not
    end before its first event. *)
Theorem trial_not_before_first_event
  (fuel : nat) (s s' : Simulator) (g g' : rng) (r : Q) :
  valid_parameters s -> time_ordered 0 s ->
  both_in_maintenance 0 s = false ->
  simulate weibull fuel s g = Some (r, s', g') ->
  next_event s <= r.
Proof.
  intros Hv Ho Hb H. unfold simulate in H.
  destruct fuel as [|fuel]; [discriminate|]. simpl in H.
  destruct (step weibull 0 s g) as [t1|t1 s1 g1] eqn:E.
  - rewrite step_dispatch in E. unfold stops in E. rewrite Hb in E.
    rewrite andb_false_r in E. destruct (selected s); discriminate.
  - pose proof (step_valid_parameters weibull _ _ _ _ _ _ E Hv) as Hv1.
    destruct (step_time_ordered weibull weibull_nonneg _ _ _ _ _ _ Hv Ho E)
      as (_ & Ho1).
    pose proof (loop_result_bound weibull weibull_nonneg
                  _ _ _ _ _ _ _ Hv1 Ho1 H) as L.
    apply step_continue in E. destruct E as (_ & -> & _). exact L.
Qed.

End NonNegativeDraws.

End TrialProperties.

(** ** Further properties of the driver *)

(** Bounds on a sum from the left, and on [mean]. *)
Lemma fold_left_Qplus_lower (lo : Q) (l : list Q) :
  forall acc : Q,
    Forall (fun x => lo <= x) l ->
    acc + lo * inject_Z (Z.of_nat (List.length l)) <= fold_left Qplus l acc.
Proof.
  induction l as [|x l IH]; intros acc H; simpl List.length.
  - simpl fold_left. change (inject_Z (Z.of_nat 0)) with 0. lra.
  - inversion H as [|? ? Hx Hl]; subst. simpl fold_left.
    specialize (IH (acc + x) Hl).
    rewrite Nat2Z.inj_succ. unfold Z.succ. rewrite inject_Z_plus.
    change (inject_Z 1) with 1. lra.
Qed.

Lemma fold_left_Qplus_upper (hi : Q) (l : list Q) :
  forall acc : Q,
    Forall (fun x => x <= hi) l ->
    fold_left Qplus l acc <= acc + hi * inject_Z (Z.of_nat (List.length l)).
Proof.
  induction l as [|x l IH]; intros acc H; simpl List.length.
  - simpl fold_left. change (inject_Z (Z.of_nat 0)) with 0. lra.
  - inversion H as [|? ? Hx Hl]; subst. simpl fold_left.
    specialize (IH (acc + x) Hl).
    rewrite Nat2Z.inj_succ. unfold Z.succ. rewrite inject_Z_plus.
    change (inject_Z 1) with 1. lra.
Qed.

Lemma length_positive (A : Type) (l : list A) :
  l <> [] -> 0 < inject_Z (Z.of_nat (List.length l)).
Proof.
  intros H. destruct l as [|a l]; [contradiction H; reflexivity|].
  simpl List.length. rewrite Nat2Z.inj_succ. unfold Z.succ.
  rewrite inject_Z_plus. change (inject_Z 1) with 1.
  assert (0 <= inject_Z (Z.of_nat (List.length l))).
  { change 0 with (inject_Z 0). rewrite <- Zle_Qle. apply Nat2Z.is_nonneg. }
  lra.
Qed.

Lemma mean_lower_bound (lo : Q) (l : list Q) :
  l <> [] -> Forall (fun x => lo <= x) l -> lo <= mean l.
Proof.
  intros Hne H. unfold mean.
  apply Qle_shift_div_l; [exact (length_positive _ l Hne)|].
  pose proof (fold_left_Qplus_lower lo l 0 H). lra.
Qed.

Lemma mean_upper_bound (hi : Q) (l : list Q) :
  l <> [] -> Forall (fun x => x <= hi) l -> mean l <= hi.
Proof.
  intros Hne H. unfold mean.
  apply Qle_shift_div_r; [exact (length_positive _ l Hne)|].
  pose proof (fold_left_Qplus_upper hi l 0 H). lra.
Qed.

(** The mean of a Sample that is not empty lies between any two bounds of
    its items. *)
Theorem mean_between (lo hi : Q) (l : list Q) :
  l <> [] ->
  Forall (fun x => lo <= x /\ x <= hi) l ->
  lo <= mean l /\ mean l <= hi.
Proof.
  intros Hne H. split.
  - apply mean_lower_bound; [exact Hne|].
    eapply Forall_impl; [|exact H]. intros x Hx. exact (proj1 Hx).
  - apply mean_upper_bound; [exact Hne|].
    eapply Forall_impl; [|exact H]. intros x Hx. exact (proj2 Hx).
Qed.

Section DriverProperties.

Context {rng : Type}.
Variable weibull : Q -> rng -> Q * rng.

(** Running [n + m] trials is running [n] trials and then [m] trials from
    the simulator, the generator and the list the first [n] leave. *)
Lemma run_trials_app (fuel n m : nat) :
  forall (acc : list Q) (s : Simulator) (g : rng),
    run_trials weibull fuel (n + m) acc s g =
    match run_trials weibull fuel n acc s g with
    | None => None
    | Some (acc', s1, g1) => run_trials weibull fuel m acc' s1 g1
    end.
Proof.
  induction n as [|n IH]; intros acc s g; simpl; [reflexivity|].
  destruct (simulate weibull fuel s g) as [[[t s1] g1]|]; [|reflexivity].
  destruct (reset weibull s1 g1) as [s2 g2]. apply IH.
Qed.

(** The list built so far is only extended. *)
Lemma run_trials_acc (fuel n : nat) :
  forall (acc : list Q) (s : Simulator) (g : rng),
    run_trials weibull fuel n acc s g =
    match run_trials weibull fuel n [] s g with
    | None => None
    | Some (l, s', g') => Some (acc ++ l, s', g')
    end.
Proof.
  intros acc s g. rewrite (run_trials_log weibull fuel n acc).
  rewrite (run_trials_log weibull fuel n []).
  destruct (trial_log weibull fuel n s g) as [[[l s'] g']|]; reflexivity.
Qed.

(** The batches of a schedule are consecutive slices of one sequence of
    trials: a run over the schedule does the trials that one inner loop of
    the total count does, leaves the same simulator and generator, and its
    averages are the means of the slices, one slice of [n] times per count
    [n]. *)
Theorem batches_slice_one_sequence
  (fuel : nat) (runs : list nat) (s s' : Simulator) (g g' : rng)
  (average_times : list Q) :
  run_batches weibull fuel runs [] s g = Some (average_times, s', g') ->
  exists samples : list (list Q),
    run_trials weibull fuel (list_sum runs) [] s g
      = Some (List.concat samples, s', g') /\
    Forall2 (fun n l => List.length l = n) runs samples /\
    average_times = map mean samples.
Proof.
  rewrite <- (app_nil_l average_times). generalize (@nil Q) at 1 2 as acc.
  revert s g average_times.
  induction runs as [|n rest IH]; intros s g avgs acc H; simpl in H.
  - injection H as H <- <-. exists []. simpl.
    split; [reflexivity|]. split; [constructor|].
    apply app_inv_head with (l := acc). rewrite app_nil_r. symmetry. exact H.
  - destruct (run_trials weibull fuel n [] s g) as [[[l s1] g1]|] eqn:E;
      [|discriminate].
    rewrite (run_batches_log weibull fuel rest (acc ++ [mean l])) in H.
    destruct (batch_log weibull fuel rest s1 g1) as [[[ls s2] g2]|] eqn:Eb;
      [|discriminate].
    injection H as H <- <-.
    destruct (IH s1 g1 (map sample_mean ls) []) as (samples & Hr & Hf & Hm).
    { rewrite (run_batches_log weibull fuel rest []), Eb. reflexivity. }
    exists (l :: samples). split; [|split].
    + simpl list_sum. rewrite run_trials_app, E.
      rewrite run_trials_acc, Hr. reflexivity.
    + constructor; [|exact Hf].
      rewrite run_trials_log in E.
      destruct (trial_log weibull fuel n s g) as [[[tl s3] g3]|] eqn:El;
        [|discriminate].
      injection E as <- _ _. unfold sample. rewrite length_map.
      exact (proj1 (trial_log_linked weibull _ _ _ _ _ _ _ El)).
    + rewrite <- app_assoc in H. apply app_inv_head in H.
      simpl in H. rewrite <- H. simpl in Hm. simpl. f_equal. exact Hm.
Qed.

(** A whole run, whatever the schedule, leaves the names, shapes and scales
    of the devices and the maintenance duration as they were. *)
Theorem run_keeps_configuration
  (fuel : nat) (runs : list nat) (acc average_times : list Q)
  (s s' : Simulator) (g g' : rng) :
  run_batches weibull fuel runs acc s g = Some (average_times, s', g') ->
  same_config s s'.
Proof.
  rewrite run_batches_log.
  destruct (batch_log weibull fuel runs s g) as [[[logs s1] g1]|] eqn:Eb;
    [|discriminate].
  intros H. injection H as _ <- _.
  destruct (batch_log_linked weibull _ _ _ _ _ _ _ Eb) as (_ & Hl).
  exact (proj1 (linked_starts weibull _ _ _ _ _ _ Hl)).
Qed.

(** With draws that are not negative, every termination time that a run
    from the constructed simulator records is non-negative, and so is every
    average it returns for a schedule of positive counts. *)
Theorem run_averages_nonnegative
  (fuel : nat) (runs : list nat) (g g' : rng) (s' : Simulator)
  (average_times : list Q) :
  (forall (a : Q) (g : rng), 0 <= fst (weibull a g)) ->
  Forall (fun n => (0 < n)%nat) runs ->
  run_batches weibull fuel runs [] (fst (initial_simulator weibull g))
    (snd (initial_simulator weibull g)) = Some (average_times, s', g') ->
  Forall (fun a => 0 <= a) average_times.
Proof.
  intros Hw Hpos. rewrite run_batches_log.
  destruct (batch_log weibull fuel runs _ _) as [[[logs s1] g1]|] eqn:Eb;
    [|discriminate].
  intros H. injection H as <- _ _.
  destruct (batch_log_linked weibull _ _ _ _ _ _ _ Eb) as (Hn & Hl).
  destruct (initial_simulator_well_formed weibull Hw g) as (Hv & Ho).
  pose proof (linked_well_formed weibull Hw _ _ _ _ _ _ Hl Hv Ho) as Hwf.
  pose proof (linked_genuine weibull _ _ _ _ _ _ Hl) as Hgen.
  assert (Htimes : Forall (fun e : Trial rng => 0 <= termination_time e)
                     (List.concat logs)).
  { rewrite Forall_forall in *. intros e He.
    destruct (Hwf e He) as (Hve & Hoe).
    destruct (Hgen e He) as (s2 & g2 & Hsim).
    exact (loop_result_bound weibull Hw _ _ _ _ _ _ _ Hve Hoe Hsim). }
  apply Forall_concat in Htimes.
  clear Hl Hwf Hgen Eb. revert runs Hpos Hn.
  induction logs as [|l logs IH]; intros runs Hpos Hn; [constructor|].
  inversion Hn as [|n ? runs' ? Hlen Hrest]; subst.
  inversion Hpos as [|? ? Hn0 Hpos']; subst.
  inversion Htimes as [|? ? Hl Hls]; subst.
  simpl. constructor.
  - unfold sample_mean. apply mean_lower_bound.
    + unfold sample. destruct l; [simpl in Hn0; lia|discriminate].
    + unfold sample. apply Forall_map. exact Hl.
  - exact (IH Hls runs' Hpos' Hrest).
Qed.

End DriverProperties.

(** *** The further properties on concrete inputs *)

Lemma failed_changes_only_by_own_events_witness :
  exists s' : Simulator,
    step (constant_weibull 1) 15 seismic_simulator tt = Continue 20 s' tt /\
    failed (device1 s') <> failed (device1 seismic_simulator) /\
    selected seismic_simulator = Seismic /\
    failed (device1 s') = true /\
    end_maintenance (device1 seismic_simulator) <= 20.
Proof.
  eexists. split; [reflexivity|].
  assert (Hf : failed (device1 (fst (handle_quake (constant_weibull 1) 20
                                       seismic_simulator tt)))
               <> failed (device1 seismic_simulator))
    by (simpl; discriminate).
  split; [exact Hf|].
  destruct (failed_changes_only_by_own_events (constant_weibull 1) 15 20
              seismic_simulator _ tt tt eq_refl) as (_ & _ & H1 & _).
  destruct (H1 Hf) as [(Hsel & _)|(Hsel & Hfail & Hem)].
  - discriminate Hsel.
  - split; [exact Hsel|]. split; [exact Hfail|exact Hem].
Defined.

Lemma break_follows_deferred_maintenance_witness :
  time_ordered 130 pre_break_simulator /\
  exists s' : Simulator,
    step (constant_weibull 1) 130 pre_break_simulator tt
      = Continue 130 s' tt /\
    stops 130 s' = true /\
    selected pre_break_simulator = Maintenance2 /\
    130 < end_maintenance (device1 pre_break_simulator) /\
    next_maintenance (device2 s')
      = end_maintenance (device1 pre_break_simulator) + 1.
Proof.
  assert (Ho : time_ordered 130 pre_break_simulator)
    by (unfold time_ordered; repeat split; q_decide).
  split; [exact Ho|].
  eexists. split; [reflexivity|]. split; [reflexivity|].
  destruct (break_follows_deferred_maintenance (constant_weibull 1) 130 130
              pre_break_simulator _ tt tt Ho eq_refl eq_refl)
    as [(Hsel & _)|H].
  - discriminate Hsel.
  - exact H.
Defined.

Lemma trial_ends_in_double_maintenance_witness :
  exists (r : Q) (s' : Simulator),
    simulate (constant_weibull (1 # 2)) 5 half_simulator tt = Some (r, s', tt) /\
    reaches (constant_weibull (1 # 2)) 0 half_simulator tt r s' tt /\
    next_event s' == quake s' /\
    r < end_maintenance (device1 s') /\
    r < end_maintenance (device2 s').
Proof.
  destruct (simulate (constant_weibull (1 # 2)) 5 half_simulator tt)
    as [[[r s'] []]|] eqn:E.
  2: { vm_compute in E. discriminate E. }
  exists r, s'. split; [reflexivity|].
  exact (trial_ends_in_double_maintenance (constant_weibull (1 # 2))
           5 half_simulator s' tt tt r E).
Defined.

Lemma schedule_invariant_witness :
  valid_parameters half_simulator /\
  time_ordered 0 half_simulator /\
  window_bounded 0 half_simulator /\
  exists (r : Q) (s' : Simulator),
    reaches (constant_weibull (1 # 2)) 0 half_simulator tt r s' tt /\
    r == 130 /\ time_ordered r s' /\ window_bounded r s'.
Proof.
  assert (Hv : valid_parameters half_simulator)
    by (unfold valid_parameters; repeat split; q_decide).
  assert (Ho : time_ordered 0 half_simulator)
    by (unfold time_ordered; repeat split; q_decide).
  assert (Hb : window_bounded 0 half_simulator)
    by (unfold window_bounded; repeat split; q_decide).
  split; [exact Hv|]. split; [exact Ho|]. split; [exact Hb|].
  destruct (loop (constant_weibull (1 # 2)) 5 0 half_simulator tt)
    as [[[r s'] []]|] eqn:E.
  2: { vm_compute in E. discriminate E. }
  pose proof (loop_result_reached (constant_weibull (1 # 2))
                5 0 r half_simulator s' tt tt E) as Hr.
  exists r, s'. split; [exact Hr|]. split.
  - vm_compute in E. injection E as <- _. reflexivity.
  - exact (schedule_invariant (constant_weibull (1 # 2))
             (constant_weibull_nonneg (1 # 2) ltac:(q_decide))
             0 r half_simulator s' tt tt Hv Ho Hb Hr).
Defined.

Lemma trial_not_before_first_event_witness :
  both_in_maintenance 0 half_simulator = false /\
  next_event half_simulator == 30 /\
  exists (r : Q) (s' : Simulator),
    simulate (constant_weibull (1 # 2)) 5 half_simulator tt = Some (r, s', tt) /\
    next_event half_simulator <= r.
Proof.
  split; [reflexivity|]. split; [reflexivity|].
  destruct (simulate (constant_weibull (1 # 2)) 5 half_simulator tt)
    as [[[r s'] []]|] eqn:E.
  2: { vm_compute in E. discriminate E. }
  exists r, s'. split; [reflexivity|].
  apply (trial_not_before_first_event (constant_weibull (1 # 2))
           (constant_weibull_nonneg (1 # 2) ltac:(q_decide))
           5 half_simulator s' tt tt r).
  - unfold valid_parameters; repeat split; q_decide.
  - unfold time_ordered; repeat split; q_decide.
  - reflexivity.
  - exact E.
Defined.

Lemma mean_between_witness :
  130 <= mean [130; 200; 200] /\ mean [130; 200; 200] <= 200.
Proof.
  apply (mean_between 130 200 [130; 200; 200]).
  - discriminate.
  - repeat constructor; q_decide.
Defined.

Lemma batches_slice_one_sequence_witness :
  exists (average_times : list Q) (s' : Simulator) (g' : list Q)
         (samples : list (list Q)),
    run_batches list_weibull 5 [2; 3]%nat []
      (fst (initial_simulator list_weibull five_halves))
      (snd (initial_simulator list_weibull five_halves))
      = Some (average_times, s', g') /\
    run_trials list_weibull 5 5 []
      (fst (initial_simulator list_weibull five_halves))
      (snd (initial_simulator list_weibull five_halves))
      = Some (List.concat samples, s', g') /\
    Forall2 (fun n l => List.length l = n) [2; 3]%nat samples /\
    average_times = map mean samples.
Proof.
  destruct (run_batches list_weibull 5 [2; 3]%nat []
              (fst (initial_simulator list_weibull five_halves))
              (snd (initial_simulator list_weibull five_halves)))
    as [[[avgs s'] g']|] eqn:E.
  2: { vm_compute in E. discriminate E. }
  destruct (batches_slice_one_sequence list_weibull _ _ _ _ _ _ _ E)
    as (samples & H).
  exists avgs, s', g', samples. split; [reflexivity|exact H].
Defined.

Lemma run_keeps_configuration_witness :
  exists (average_times : list Q) (s' : Simulator) (g' : list Q),
    run_batches list_weibull 5 [2; 3]%nat []
      (fst (initial_simulator list_weibull five_halves))
      (snd (initial_simulator list_weibull five_halves))
      = Some (average_times, s', g') /\
    same_config (fst (initial_simulator list_weibull five_halves)) s'.
Proof.
  destruct (run_batches list_weibull 5 [2; 3]%nat []
              (fst (initial_simulator list_weibull five_halves))
              (snd (initial_simulator list_weibull five_halves)))
    as [[[avgs s'] g']|] eqn:E.
  2: { vm_compute in E. discriminate E. }
  exists avgs, s', g'. split; [reflexivity|].
  exact (run_keeps_configuration list_weibull _ _ _ _ _ _ _ _ E).
Defined.

Lemma run_averages_nonnegative_witness :
  (forall (a : Q) (g : unit), 0 <= fst (constant_weibull (1 # 2) a g)) /\
  Forall (fun n => (0 < n)%nat) [2; 3]%nat /\
  exists (average_times : list Q) (s' : Simulator),
    run_batches (constant_weibull (1 # 2)) 5 [2; 3]%nat []
      (fst (initial_simulator (constant_weibull (1 # 2)) tt))
      (snd (initial_simulator (constant_weibull (1 # 2)) tt))
      = Some (average_times, s', tt) /\
    Forall (fun a => 0 <= a) average_times.
Proof.
  assert (Hw : forall (a : Q) (g : unit),
             0 <= fst (constant_weibull (1 # 2) a g))
    by (intros a g; q_decide).
  assert (Hn : Forall (fun n => (0 < n)%nat) [2; 3]%nat)
    by (repeat constructor).
  split; [exact Hw|]. split; [exact Hn|].
  destruct (run_batches (constant_weibull (1 # 2)) 5 [2; 3]%nat []
              (fst (initial_simulator (constant_weibull (1 # 2)) tt))
              (snd (initial_simulator (constant_weibull (1 # 2)) tt)))
    as [[[avgs s'] []]|] eqn:E.
  2: { vm_compute in E. discriminate E. }
  exists avgs, s'. split; [reflexivity|].
  exact (run_averages_nonnegative (constant_weibull (1 # 2))
           _ _ _ _ _ _ Hw Hn E).
Defined.
